(** * shrenk.py: shrinking the last ext2/3/4 partition of a disk image

    A shallow embedding of [src/shrenk.py] and the properties of its size
    arithmetic, its parsing of tool output, and its handling of the loop
    device.

    Python [int] is [Z]; Python [str] is a list of characters (the text the
    tools print is taken to be ASCII); the external tools, the device nodes
    and the terminal are an explicit state that every effectful function
    threads, together with a trace of what the program did. *)

From Stdlib Require Import ZArith List Ascii String Bool Lia.
Import ListNotations.
Open Scope Z_scope.

(** ** Text *)

Definition str := list ascii.

Definition lit (s : string) : str := list_ascii_of_string s.
Arguments lit s%_string.

Definition nl : ascii := ascii_of_nat 10.

Definition code (c : ascii) : Z := Z.of_N (N_of_ascii c).

(** [str.isspace] on one ASCII character, which is also what [\s] matches
    and what [str.strip()] and [str.split()] remove: TAB..CR, FS..US, SPACE. *)
Definition is_space (c : ascii) : bool :=
  let n := code c in
  ((9 <=? n) && (n <=? 13)) || ((28 <=? n) && (n <=? 32)).

(** [\d] and [str.isdigit] on one ASCII character. *)
Definition is_digit (c : ascii) : bool :=
  let n := code c in (48 <=? n) && (n <=? 57).

Fixpoint str_eqb (a b : str) : bool :=
  match a, b with
  | [], [] => true
  | x :: a', y :: b' => Ascii.eqb x y && str_eqb a' b'
  | _, _ => false
  end.

Fixpoint lstrip (s : str) : str :=
  match s with
  | c :: t => if is_space c then lstrip t else s
  | [] => []
  end.

Definition rstrip (s : str) : str := rev (lstrip (rev s)).

(** [s.strip()] *)
Definition strip (s : str) : str := rstrip (lstrip s).

(** [s.split()]: the maximal runs of non-blank characters. *)
Fixpoint split_aux (cur : str) (s : str) : list str :=
  match s with
  | [] => match cur with [] => [] | _ => [rev cur] end
  | c :: t =>
      if is_space c
      then match cur with [] => split_aux [] t | _ => rev cur :: split_aux [] t end
      else split_aux (c :: cur) t
  end.

Definition split (s : str) : list str := split_aux [] s.

(** The ASCII line boundaries of [str.splitlines]: LF, VT, FF, CR, FS, GS, RS. *)
Definition is_linebreak (c : ascii) : bool :=
  let n := code c in
  ((10 <=? n) && (n <=? 13)) || ((28 <=? n) && (n <=? 30)).

(** [s.splitlines()]: CR LF is one boundary, no empty last line. *)
Fixpoint splitlines_aux (cur : str) (s : str) : list str :=
  match s with
  | [] => match cur with [] => [] | _ => [rev cur] end
  | c :: t =>
      if is_linebreak c then
        match t with
        | c' :: t' =>
            if (code c =? 13) && (code c' =? 10)
            then rev cur :: splitlines_aux [] t'
            else rev cur :: splitlines_aux [] t
        | [] => rev cur :: splitlines_aux [] t
        end
      else splitlines_aux (c :: cur) t
  end.

Definition splitlines (s : str) : list str := splitlines_aux [] s.

(** [name.startswith(base)] together with [name[len(base):]]. *)
Fixpoint starts_with (p s : str) : option str :=
  match p, s with
  | [], _ => Some s
  | x :: p', y :: s' => if Ascii.eqb x y then starts_with p' s' else None
  | _ :: _, [] => None
  end.

(** [sep.join(parts)] *)
Fixpoint join (sep : str) (parts : list str) : str :=
  match parts with
  | [] => []
  | [p] => p
  | p :: rest => p ++ sep ++ join sep rest
  end.

(** [os.path.basename(p)]: what follows the last slash. *)
Fixpoint basename_aux (cur : str) (p : str) : str :=
  match p with
  | [] => rev cur
  | c :: t => if Ascii.eqb c "/" then basename_aux [] t else basename_aux (c :: cur) t
  end.

Definition basename (p : str) : str := basename_aux [] p.

(** ** Integers as text *)

Definition digit_char (d : Z) : ascii := ascii_of_N (Z.to_N (48 + d)).

Definition digit_val (c : ascii) : Z := code c - 48.

(** The decimal digits of [n >= 0], most significant first.  The recursion is
    on the binary size of a bound [fuel >= n]. *)
Fixpoint digits_fuel (fuel : positive) (n : Z) (acc : str) : str :=
  let acc' := digit_char (n mod 10) :: acc in
  if n <? 10 then acc'
  else match fuel with
       | xH => acc'
       | xO f | xI f => digits_fuel f (n / 10) acc'
       end.

(** [str(n)], also what an f-string writes for an [int]. *)
Definition str_of_int (n : Z) : str :=
  match n with
  | Z0 => lit "0"
  | Zpos p => digits_fuel p n []
  | Zneg p => "-"%char :: digits_fuel p (Zpos p) []
  end.

(** The digit groups of [int(text)]: digits, single underscores between them. *)
Fixpoint parse_digits (acc : Z) (after_digit : bool) (s : str) : option Z :=
  match s with
  | [] => if after_digit then Some acc else None
  | c :: t =>
      if is_digit c then parse_digits (10 * acc + digit_val c) true t
      else if Ascii.eqb c "_" && after_digit
           then match t with [] => None | _ => parse_digits acc false t end
           else None
  end.

(** [int(text)]: surrounding blanks, an optional sign, decimal digits;
    [None] stands for the [ValueError]. *)
Definition int_of_str (s : str) : option Z :=
  match strip s with
  | c :: t =>
      if Ascii.eqb c "-" then option_map Z.opp (parse_digits 0 false t)
      else if Ascii.eqb c "+" then parse_digits 0 false t
      else parse_digits 0 false (c :: t)
  | [] => None
  end.

(** ** Regular expressions

    The patterns of the program are sequences of literals, greedy character
    class repetitions (some of them capturing) and one optional character.
    [re_match] is the backtracking matcher of Python's [re] on that
    fragment: a repetition first takes the longest run and gives characters
    back one at a time; [re_search] tries every start position from the
    left. *)

Inductive item : Type :=
| Lit (s : str)
| Many (at_least_one capture : bool) (cls : ascii -> bool)
| Opt (c : ascii).

Definition regex := list item.

Fixpoint span (cls : ascii -> bool) (s : str) : nat :=
  match s with
  | c :: t => if cls c then S (span cls t) else O
  | [] => O
  end.

Fixpoint greedy {R : Type} (lo k : nat) (f : nat -> option R) : option R :=
  if (k <? lo)%nat then None
  else match f k with
       | Some r => Some r
       | None => match k with
                 | O => None
                 | S k' => greedy lo k' f
                 end
       end.

Fixpoint re_match (r : regex) (s : str) : option (list str) :=
  match r with
  | [] => Some []
  | Lit l :: r' =>
      match starts_with l s with
      | Some s' => re_match r' s'
      | None => None
      end
  | Opt c :: r' =>
      match s with
      | c' :: s' =>
          if Ascii.eqb c c'
          then match re_match r' s' with
               | Some g => Some g
               | None => re_match r' s
               end
          else re_match r' s
      | [] => re_match r' s
      end
  | Many one cap cls :: r' =>
      greedy (if one then 1%nat else 0%nat) (span cls s)
        (fun k => match re_match r' (skipn k s) with
                  | Some g => Some (if cap then firstn k s :: g else g)
                  | None => None
                  end)
  end.

(** [pattern.search(text)]: the groups of the leftmost match. *)
Fixpoint re_search (r : regex) (s : str) : option (list str) :=
  match re_match r s with
  | Some g => Some g
  | None => match s with
            | [] => None
            | _ :: t => re_search r t
            end
  end.

(** The characters [re.escape] protects; a device name without them is its
    own pattern. *)
Definition re_special (c : ascii) : bool :=
  existsb (Ascii.eqb c) (lit ".^$*+?{}[]\|()").

Definition re_plain (s : str) : bool := forallb (fun c => negb (re_special c)) s.

(** What a pattern matches: [matches r c g] when [r] matches exactly the
    text [c], its groups holding [g]. *)
Fixpoint matches (r : regex) (c : str) (g : list str) : Prop :=
  match r with
  | [] => c = [] /\ g = []
  | Lit l :: r' => exists c', c = l ++ c' /\ matches r' c' g
  | Opt ch :: r' => (exists c', c = ch :: c' /\ matches r' c' g) \/ matches r' c g
  | Many one cap cls :: r' =>
      exists w c' g',
        c = w ++ c' /\ forallb cls w = true /\ (one = true -> w <> []) /\
        matches r' c' g' /\ g = if cap then w :: g' else g'
  end.


Definition digit_run (d : str) : Prop := d <> [] /\ forallb is_digit d = true.



(** ** Exceptions, results and the host system *)

Inductive exn : Type :=
| RuntimeError (msg : str)
| ValueError (msg : str)
| TypeError
| ZeroDivisionError
| IndexError
| EOFError
| SystemExit (status : Z).

Inductive result (A : Type) : Type :=
| Ok (a : A)
| Raise (e : exn).
Arguments Ok {A} a.
Arguments Raise {A} e.

Definition rbind {A B : Type} (r : result A) (k : A -> result B) : result B :=
  match r with
  | Ok a => k a
  | Raise e => Raise e
  end.

(** What [subprocess.run] hands back for one finished command. *)
Record proc : Type := { returncode : Z; stdout : str; stderr : str }.

(** The machine the script runs on.  [subprocess_run cmd] runs [cmd] through
    the shell and waits for it.  [node_appears path] is the outcome of the
    polling loop of [wait_for_device] (lines 85-89), which sleeps in steps of
    0.2 s of real time: [true] when [os.path.exists(path)] became true before
    the time-out, [false] when the time-out came first. *)
Class Host (Sys : Type) : Type := {
  subprocess_run : str -> Sys -> proc * Sys;
  node_appears : str -> Sys -> bool * Sys
}.

(** What the program did, most recent first. *)
Inductive event : Type :=
| Exec (cmd : str) (p : proc)
| Wait (path : str) (found : bool)
| Print (line : str)
| Input (prompt : str) (line : option str).

Record state (Sys : Type) : Type := {
  sys : Sys;
  stdin : list str;
  trace : list event
}.
Arguments sys {Sys} s.
Arguments stdin {Sys} s.
Arguments trace {Sys} s.

Definition M (Sys A : Type) : Type := state Sys -> result A * state Sys.

Definition ret {Sys A : Type} (a : A) : M Sys A := fun st => (Ok a, st).

Definition raise {Sys A : Type} (e : exn) : M Sys A := fun st => (Raise e, st).

Definition bind {Sys A B : Type} (m : M Sys A) (k : A -> M Sys B) : M Sys B :=
  fun st =>
    match m st with
    | (Ok a, st') => k a st'
    | (Raise e, st') => (Raise e, st')
    end.

Definition lift {Sys A : Type} (r : result A) : M Sys A := fun st => (r, st).

(** [try: body finally: fin]: [fin] runs on every way out of [body]; an
    exception of [fin] replaces the outcome of [body]. *)
Definition try_finally {Sys A : Type} (body : M Sys A) (fin : M Sys unit) : M Sys A :=
  fun st =>
    match body st with
    | (r, st1) =>
        match fin st1 with
        | (Ok _, st2) => (r, st2)
        | (Raise e, st2) => (Raise e, st2)
        end
    end.

Declare Scope prog_scope.
Delimit Scope prog_scope with prog.
Notation "x <- m ;; k" := (bind m (fun x => k))
  (at level 61, m at next level, right associativity) : prog_scope.
Notation "' p <- m ;; k" := (bind m (fun x => match x with p => k end))
  (at level 61, p pattern, m at next level, right associativity) : prog_scope.
Notation "m ;; k" := (bind m (fun _ => k))
  (at level 61, right associativity) : prog_scope.

Definition log {Sys : Type} (e : event) (st : state Sys) : state Sys :=
  {| sys := sys st; stdin := stdin st; trace := e :: trace st |}.

(** [print(line)] *)
Definition print {Sys : Type} (line : str) : M Sys unit :=
  fun st => (Ok tt, log (Print line) st).

(** [input(prompt)]: the next line of standard input, [EOFError] at its end. *)
Definition input {Sys : Type} (prompt : str) : M Sys str :=
  fun st =>
    match stdin st with
    | l :: rest =>
        (Ok l, {| sys := sys st; stdin := rest; trace := Input prompt (Some l) :: trace st |})
    | [] => (Raise EOFError, log (Input prompt None) st)
    end.

(** [int(text)] *)
Definition py_int (s : str) : result Z :=
  match int_of_str s with
  | Some n => Ok n
  | None => Raise (ValueError (lit "invalid literal for int() with base 10"))
  end.

(** [a // b] *)
Definition floordiv (a b : Z) : result Z :=
  if b =? 0 then Raise ZeroDivisionError else Ok (a / b).

(** [int(a / b)] for integers [a], [b]: the true quotient truncated toward
    zero.  CPython rounds the quotient of two integers correctly to a double;
    the model keeps the exact quotient, which is the same integer whenever
    the division is exact or the quotient is below 2^53 and further than its
    rounding error from an integer. *)
Definition int_truediv (a b : Z) : result Z :=
  if b =? 0 then Raise ZeroDivisionError else Ok (Z.quot a b).

(** ** The functions of shrenk.py *)

Section Program.

Context {Sys : Type} `{Host Sys}.

Local Open Scope prog_scope.
Local Notation "a +++ b" := (@app ascii a b) (at level 60, right associativity).

(** [run_cmd] (lines 41-62): [None] is returned when the output is not
    captured; the standard error stream is always captured. *)
Definition run_cmd (cmd : str) (capture_output check : bool) : M Sys (option str) :=
  fun st =>
    let '(p, sys') := subprocess_run cmd (sys st) in
    let st' := {| sys := sys'; stdin := stdin st; trace := Exec cmd p :: trace st |} in
    if check && negb (returncode p =? 0)
    then (Raise (RuntimeError
                   (lit "Command failed: " +++ cmd +++ [nl] +++
                    lit "Exit code: " +++ str_of_int (returncode p) +++ [nl] +++
                    lit "stdout: " +++ (if capture_output then stdout p else lit "None") +++ [nl] +++
                    lit "stderr: " +++ stderr p)), st')
    else (Ok (if capture_output then Some (strip (stdout p)) else None), st').

(** Using the value of [run_cmd] as text. *)
Definition text (o : option str) : M Sys str :=
  match o with
  | Some s => ret s
  | None => raise TypeError
  end.

Definition find_free_loop_device : M Sys str :=
  out <- run_cmd (lit "losetup -f") true true;;
  text out.

Definition attach_loop_device (image_path : str) : M Sys str :=
  loop_dev <- find_free_loop_device;;
  run_cmd (lit "sudo losetup -P " +++ loop_dev +++ lit " " +++ image_path) false true;;
  run_cmd (lit "sudo partprobe " +++ loop_dev) false false;;
  run_cmd (lit "sudo udevadm settle") false false;;
  ret loop_dev.

Definition detach_loop_device (loop_dev : str) : M Sys unit :=
  run_cmd (lit "sudo losetup -d " +++ loop_dev) false true;;
  ret tt.

(** [wait_for_device] (lines 83-89) with its default time-out of 10 s. *)
Definition wait_for_device (dev_path : str) : M Sys unit :=
  fun st =>
    let '(found, sys') := node_appears dev_path (sys st) in
    let st' := {| sys := sys'; stdin := stdin st; trace := Wait dev_path found :: trace st |} in
    if found then (Ok tt, st')
    else (Raise (RuntimeError (lit "Device " +++ dev_path +++
                               lit " did not appear within 10 seconds")), st').

Definition blanks : item := Many true false is_space.
Definition number : item := Many true true is_digit.

(** The pattern of line 95.  [loop_dev] is pasted into the pattern as it is:
    the literal below is that pattern when [re_plain loop_dev] holds. *)
Definition partition_regex (loop_dev : str) (part_num : Z) : regex :=
  [Lit (loop_dev +++ lit "p" +++ str_of_int part_num);
   blanks; Opt "*"; blanks; number; blanks; number].

(** Lines 95-101 of [get_partition_start], on the text of [fdisk -l]. *)
Definition parse_partition_start (loop_dev : str) (part_num : Z) (output : str)
  : result (Z * Z) :=
  match re_search (partition_regex loop_dev part_num) output with
  | Some [g1; g2] =>
      rbind (py_int g1) (fun start_sector =>
      rbind (py_int g2) (fun end_sector =>
      Ok (start_sector, end_sector)))
  | _ => Raise (RuntimeError (lit "Partition " +++ str_of_int part_num +++
                              lit " not found on " +++ loop_dev))
  end.

Definition get_partition_start (loop_dev : str) (part_num : Z) : M Sys (Z * Z) :=
  o <- run_cmd (lit "sudo fdisk -l " +++ loop_dev) true true;;
  output <- text o;;
  lift (parse_partition_start loop_dev part_num output).

(** The loop of [list_partition_numbers] (lines 108-117). *)
Fixpoint partition_numbers (base : str) (lines : list str) : result (list Z) :=
  match lines with
  | [] => Ok []
  | line :: rest =>
      match split line with
      | [name; typ] =>
          if negb (str_eqb typ (lit "part")) then partition_numbers base rest
          else match starts_with base name with
               | None => partition_numbers base rest
               | Some suffix =>
                   if negb (List.length suffix =? 0)%nat && forallb is_digit suffix
                   then rbind (py_int suffix) (fun n =>
                        rbind (partition_numbers base rest) (fun ns => Ok (n :: ns)))
                   else partition_numbers base rest
               end
      | _ => partition_numbers base rest
      end
  end.

Definition list_partition_numbers (loop_dev : str) : M Sys (list Z) :=
  o <- run_cmd (lit "lsblk -ln -o NAME,TYPE " +++ loop_dev) true true;;
  output <- text o;;
  lift (partition_numbers (basename loop_dev +++ lit "p") (splitlines output)).

Definition get_sector_size (loop_dev : str) : M Sys Z :=
  o <- run_cmd (lit "blockdev --getss " +++ loop_dev) true true;;
  output <- text o;;
  lift (py_int output).

Definition e2fsck_partition (part_dev : str) : M Sys unit :=
  run_cmd (lit "sudo e2fsck -f -y " +++ part_dev) false true;;
  ret tt.

Definition get_min_filesystem_blocks (part_dev : str) : M Sys Z :=
  o <- run_cmd (lit "sudo resize2fs -P " +++ part_dev) true true;;
  output <- text o;;
  match re_search [Lit (lit "Estimated minimum size of the filesystem: "); number] output with
  | Some [g] => lift (py_int g)
  | _ => raise (RuntimeError
                  (lit "Failed to get minimum filesystem size from resize2fs output."))
  end.

Definition get_block_size (part_dev : str) : M Sys Z :=
  o <- run_cmd (lit "sudo tune2fs -l " +++ part_dev) true true;;
  output <- text o;;
  match re_search [Lit (lit "Block size:"); Many false false is_space; number] output with
  | Some [g] => lift (py_int g)
  | _ => raise (RuntimeError (lit "Failed to get block size for " +++ part_dev))
  end.

(** [resize_filesystem] (lines 176-181); [blocks] is [None] or an integer, and
    [if blocks:] holds for an integer other than 0. *)
Definition resize_filesystem (part_dev : str) (blocks : option Z) : M Sys unit :=
  match blocks with
  | Some b =>
      if negb (b =? 0)
      then run_cmd (lit "sudo resize2fs " +++ part_dev +++ lit " " +++ str_of_int b) false true;;
           ret tt
      else run_cmd (lit "sudo resize2fs " +++ part_dev) false true;; ret tt
  | None => run_cmd (lit "sudo resize2fs " +++ part_dev) false true;; ret tt
  end.

Definition resize_partition (loop_dev : str) (part_num : Z) (new_end : str) : M Sys unit :=
  let script := lit "resizepart " +++ str_of_int part_num +++ lit " " +++ new_end +++ [nl] +++
                lit "Yes" +++ [nl] +++ lit "quit" +++ [nl] in
  let cmd := lit "printf '" +++ script +++ lit "' | sudo parted " +++ loop_dev +++
             lit " ---pretend-input-tty" in
  run_cmd cmd false true;;
  ret tt.

Definition truncate_image (image_path : str) (new_size : Z) : M Sys unit :=
  run_cmd (lit "truncate -s " +++ str_of_int new_size +++ lit " " +++ image_path) false true;;
  ret tt.

Definition assert_ext_filesystem (part_dev : str) : M Sys unit :=
  o <- run_cmd (lit "sudo blkid -o value -s TYPE " +++ part_dev) true true;;
  fstype <- text o;;
  if negb (existsb (str_eqb fstype) [lit "ext2"; lit "ext3"; lit "ext4"])
  then raise (RuntimeError (lit "Unsupported filesystem type '" +++ fstype +++ lit "' on " +++
                            part_dev +++ lit ". This script only handles ext2/3/4."))
  else ret tt.

Definition can_shrink (loop_dev : str) (part_num : Z) (target_bytes : Z) : M Sys bool :=
  '(start_sector, end_sector) <- get_partition_start loop_dev part_num;;
  sector_size <- get_sector_size loop_dev;;
  let current_bytes := (end_sector - start_sector + 1) * sector_size in
  ret (current_bytes - target_bytes >? sector_size).

(** *** The layout bar *)

(** One line of the listing under the pattern of line 131: the device name
    is escaped there, so it is matched literally whatever it contains. *)
Definition layout_regex (loop_dev : str) : regex :=
  [Lit (loop_dev +++ lit "p"); number; blanks; Opt "*"; blanks; number; blanks; number].

(** The loop of lines 133-136. *)
Fixpoint layout_parts (loop_dev : str) (lines : list str) : result (list (Z * Z * Z)) :=
  match lines with
  | [] => Ok []
  | line :: rest =>
      match re_search (layout_regex loop_dev) line with
      | Some [g1; g2; g3] =>
          rbind (py_int g1) (fun num =>
          rbind (py_int g2) (fun start =>
          rbind (py_int g3) (fun end_ =>
          rbind (layout_parts loop_dev rest) (fun parts =>
          Ok ((num, start, end_) :: parts)))))
      | _ => layout_parts loop_dev rest
      end
  end.

(** [max(end for _num, _start, end in parts)] continued from a first value. *)
Definition max_end (first : Z) (parts : list (Z * Z * Z)) : Z :=
  fold_left (fun m p => Z.max m (snd p)) parts first.

(** [bar[i] = v] with Python's indexing: a negative index counts from the
    end, an index outside the list is an [IndexError]. *)
Fixpoint set_nth (bar : list str) (n : nat) (v : str) : list str :=
  match bar, n with
  | [], _ => []
  | _ :: t, O => v :: t
  | x :: t, S n' => x :: set_nth t n' v
  end.

Definition list_set (bar : list str) (i : Z) (v : str) : result (list str) :=
  let len := Z.of_nat (List.length bar) in
  let j := if i <? 0 then i + len else i in
  if (0 <=? j) && (j <? len) then Ok (set_nth bar (Z.to_nat j) v)
  else Raise IndexError.

(** [for i in range(i, i + count): bar[i] = v] *)
Fixpoint fill (bar : list str) (i : Z) (count : nat) (v : str) : result (list str) :=
  match count with
  | O => Ok bar
  | S count' => rbind (list_set bar i v) (fun bar' => fill bar' (i + 1) count' v)
  end.

(** The loop of lines 142-146. *)
Fixpoint paint (bar : list str) (bar_width total_sectors : Z) (parts : list (Z * Z * Z))
  : result (list str) :=
  match parts with
  | [] => Ok bar
  | (num, start, end_) :: rest =>
      rbind (int_truediv (start * bar_width) total_sectors) (fun left =>
      rbind (int_truediv ((end_ + 1) * bar_width) total_sectors) (fun r =>
      let right := Z.max (left + 1) r in
      rbind (fill bar left (Z.to_nat (Z.min right bar_width - left)) (str_of_int (num mod 10)))
            (fun bar' => paint bar' bar_width total_sectors rest)))
  end.

(** ["{:.0f}".format(100 / bar_width)]: the quotient rounded to an integer,
    ties to even; a negative quotient keeps its sign, also when it rounds
    to zero. *)
Definition percent_0f (bar_width : Z) : result str :=
  if bar_width =? 0 then Raise ZeroDivisionError
  else
    let w := Z.abs bar_width in
    let q := 100 / w in
    let r := 100 mod w in
    let rounded := if 2 * r <? w then q
                   else if w <? 2 * r then q + 1
                   else if Z.even q then q else q + 1 in
    Ok ((if bar_width <? 0 then lit "-" else []) +++ str_of_int rounded).

Definition legend_entry (sector_size : Z) (p : Z * Z * Z) : str :=
  let '(num, start, end_) := p in
  str_of_int num +++ lit ": " +++
  str_of_int (((end_ - start + 1) * sector_size) / (1024 * 1024)) +++ lit "MB".

(** [display_image_layout] (lines 125-152). *)
Definition display_image_layout (image_path : str) (bar_width : Z) : M Sys unit :=
  loop_dev <- attach_loop_device image_path;;
  try_finally
    (sector_size <- get_sector_size loop_dev;;
     o <- run_cmd (lit "sudo fdisk -l " +++ loop_dev) true true;;
     fdisk_out <- text o;;
     parts <- lift (layout_parts loop_dev (splitlines fdisk_out));;
     match parts with
     | [] => print (lit "[layout] No partitions found to display.")
     | (_, _, end0) :: more =>
         let total_sectors := max_end end0 more + 1 in
         let bar := repeat (lit " ") (Z.to_nat bar_width) in
         bar <- lift (paint bar bar_width total_sectors parts);;
         pct <- lift (percent_0f bar_width);;
         print ([nl] +++ lit "Disk image partition layout (each character ~" +++ pct +++
                lit "% of image):");;
         print (lit "|" +++ List.concat bar +++ lit "|");;
         print (lit "Legend: " +++ join (lit " ") (map (legend_entry sector_size) parts))
     end)
    (detach_loop_device loop_dev).

(** *** Size planning (lines 262-264, 268, 285-290) *)

Definition SAFETY_MB : Z := 100.

(** [(margin_bytes + block_size - 1) // block_size] *)
Definition extra_blocks (margin_bytes block_size : Z) : result Z :=
  floordiv (margin_bytes + block_size - 1) block_size.

Definition target_blocks (min_blocks margin_bytes block_size : Z) : result Z :=
  rbind (extra_blocks margin_bytes block_size) (fun extra => Ok (min_blocks + extra)).

(** [(fs_size_bytes + sector_size - 1) // sector_size] *)
Definition fs_size_sectors (fs_size_bytes sector_size : Z) : result Z :=
  floordiv (fs_size_bytes + sector_size - 1) sector_size.

Definition new_end_sector (start_sector fs_size_bytes sector_size : Z) : result Z :=
  rbind (fs_size_sectors fs_size_bytes sector_size) (fun sectors =>
  Ok (start_sector + sectors - 1)).

(** Line 318. *)
Definition truncate_size (start_sector sector_size fs_size_bytes : Z) : Z :=
  start_sector * sector_size + fs_size_bytes.

(** *** [main] (lines 228-334) *)

Definition max_list (first : Z) (rest : list Z) : Z := fold_left Z.max rest first.

(** Lines 237-265: the last partition, its device, the block size and the
    target block count. *)
Definition main_measure (loop_dev : str) : M Sys (Z * str * Z * Z) :=
  part_nums <- list_partition_numbers loop_dev;;
  match part_nums with
  | [] => raise (RuntimeError (lit "No partitions found on the loop device."))
  | n :: ns =>
      let last_part_num := max_list n ns in
      let part_dev := loop_dev +++ lit "p" +++ str_of_int last_part_num in
      wait_for_device part_dev;;
      assert_ext_filesystem part_dev;;
      print (lit "Using last partition: " +++ part_dev);;
      print (lit "Checking filesystem for errors...");;
      e2fsck_partition part_dev;;
      print (lit "Getting minimum filesystem size...");;
      min_blocks <- get_min_filesystem_blocks part_dev;;
      print (lit "Minimum filesystem size (blocks): " +++ str_of_int min_blocks);;
      block_size <- get_block_size part_dev;;
      print (lit "Filesystem block size: " +++ str_of_int block_size +++ lit " bytes");;
      target <- lift (target_blocks min_blocks (SAFETY_MB * 1024 * 1024) block_size);;
      print (lit "Target filesystem size (blocks) with " +++ str_of_int SAFETY_MB +++
             lit " MB margin: " +++ str_of_int target);;
      ret (last_part_num, part_dev, block_size, target)
  end.

(** Lines 273-296: shrink the filesystem, then the partition. *)
Definition main_shrink (loop_dev : str) (last_part_num : Z) (part_dev : str)
    (block_size target : Z) : M Sys unit :=
  print (lit "Resizing filesystem to target size (minimum + safety margin)...");;
  resize_filesystem part_dev (Some target);;
  print (lit "Filesystem resized.");;
  '(start_sector, end_sector) <- get_partition_start loop_dev last_part_num;;
  print (lit "Partition " +++ str_of_int last_part_num +++ lit " start sector: " +++
         str_of_int start_sector +++ lit ", current end sector: " +++ str_of_int end_sector);;
  sector_size <- get_sector_size loop_dev;;
  let fs_size_bytes := target * block_size in
  print (lit "Device sector size: " +++ str_of_int sector_size +++ lit " bytes");;
  new_end <- lift (new_end_sector start_sector fs_size_bytes sector_size);;
  print (lit "New partition end sector: " +++ str_of_int new_end);;
  print (lit "Resizing partition " +++ str_of_int last_part_num +++ lit " to end at sector " +++
         str_of_int new_end +++ lit "...");;
  resize_partition loop_dev last_part_num (str_of_int new_end +++ lit "s");;
  print (lit "Partition resized.").

(** The body of the [try] (lines 237-296).  [None] is the [return] of line
    271; otherwise the variables that are read after the [finally]. *)
Definition main_try (loop_dev : str) : M Sys (option (Z * Z * Z)) :=
  '(last_part_num, part_dev, block_size, target) <- main_measure loop_dev;;
  let fs_size_bytes_target := target * block_size in
  shrink <- can_shrink loop_dev last_part_num fs_size_bytes_target;;
  if negb shrink
  then print (lit "The partition is already at or near its target minimal size. No shrinking necessary.");;
       ret None
  else main_shrink loop_dev last_part_num part_dev block_size target;;
       ret (Some (last_part_num, block_size, target)).

(** Lines 303-334: attach again, compute the size, detach, truncate, show. *)
Definition main_finish (image_path : str) (last_part_num block_size target : Z) : M Sys unit :=
  loop_dev <- attach_loop_device image_path;;
  print (lit "Reattached image as " +++ loop_dev);;
  let part_dev := loop_dev +++ lit "p" +++ str_of_int last_part_num in
  wait_for_device part_dev;;
  '(start_sector, end_sector) <- get_partition_start loop_dev last_part_num;;
  sector_size <- get_sector_size loop_dev;;
  let fs_size_bytes := target * block_size in
  let size := truncate_size start_sector sector_size fs_size_bytes in
  print (lit "Calculated truncate size for image: " +++ str_of_int size +++ lit " bytes (~" +++
         str_of_int (size / (1024 * 1024)) +++ lit " MB)");;
  print (lit "Detaching loop device " +++ loop_dev +++ lit " before truncating image...");;
  detach_loop_device loop_dev;;
  print (lit "Truncating image file to remove unused trailing space...");;
  truncate_image image_path size;;
  print (lit "Image truncated successfully.");;
  display_image_layout image_path 60;;
  print (lit "Process complete. Verify your resized image before use.").

Definition main (image_path : str) : M Sys unit :=
  print (lit "Starting resize and truncate process for " +++ image_path);;
  print (lit "Attaching image to loop device...");;
  loop_dev <- attach_loop_device image_path;;
  print (lit "Image attached as " +++ loop_dev);;
  r <- try_finally (main_try loop_dev)
         (print (lit "Detaching loop device " +++ loop_dev +++ lit " to refresh...");;
          detach_loop_device loop_dev);;
  match r with
  | None => ret tt
  | Some (last_part_num, block_size, target) =>
      main_finish image_path last_part_num block_size target
  end.

(** *** The menu (lines 336-361) *)

Definition menu_prompt : str :=
  lit "Select an action for the image:" +++ [nl] +++
  lit "  1) Display partition layout" +++ [nl] +++
  lit "  2) Resize and truncate image" +++ [nl] +++
  lit "  3) Quit" +++ [nl] +++
  lit "Enter choice [1/2/3]: ".

(** The [while True] loop.  Every turn reads one line of standard input, so
    the lines still to be read bound the number of turns: [turns] is that
    list when the loop is entered. *)
Fixpoint menu (image_path : str) (turns : list str) : M Sys unit :=
  line <- input menu_prompt;;
  let choice := strip line in
  if str_eqb choice (lit "1") then display_image_layout image_path 60
  else if str_eqb choice (lit "2") then main image_path
  else if existsb (str_eqb choice) [lit "3"; lit "q"; lit "Q"]
  then print (lit "Exiting without changes.");;
       raise (SystemExit 0)
  else print (lit "Invalid selection. Please enter 1, 2, or 3.");;
       match turns with
       | _ :: turns' => menu image_path turns'
       | [] => raise EOFError
       end.

(** The script, given [sys.argv]. *)
Definition script (argv : list str) : M Sys unit :=
  match argv with
  | [_; image_path] => fun st => menu image_path (stdin st) st
  | _ => print (lit "Usage: sudo python3 shrenk.py /path/to/image.img");;
         raise (SystemExit 1)
  end.

End Program.

(** Lines 229-301 of [main]: everything up to the end of the [finally]. *)
Definition main_first {Sys : Type} `{Host Sys} (image_path : str) : M Sys (option (Z * Z * Z)) :=
  (print (lit "Starting resize and truncate process for " ++ image_path);;
   print (lit "Attaching image to loop device...");;
   loop_dev <- attach_loop_device image_path;;
   print (lit "Image attached as " ++ loop_dev);;
   try_finally (main_try loop_dev)
     (print (lit "Detaching loop device " ++ loop_dev ++ lit " to refresh...");;
      detach_loop_device loop_dev))%prog.

(** ** A scripted machine

    A host that plays back a script: each entry is a command it expects and
    what that command does; any other command fails with status 127.  The
    device nodes are played back the same way. *)

Record machine : Type := {
  replies : list (str * proc);
  nodes : list (str * bool)
}.

Definition succeeds (out : str) : proc := {| returncode := 0; stdout := out; stderr := [] |}.

Definition fails (status : Z) (err : str) : proc :=
  {| returncode := status; stdout := []; stderr := err |}.

Definition machine_run (cmd : str) (m : machine) : proc * machine :=
  match replies m with
  | (expected, p) :: rest =>
      if str_eqb expected cmd then (p, {| replies := rest; nodes := nodes m |})
      else (fails 127 (lit "unexpected command"), m)
  | [] => (fails 127 (lit "unexpected command"), m)
  end.

Definition machine_node (path : str) (m : machine) : bool * machine :=
  match nodes m with
  | (expected, found) :: rest =>
      if str_eqb expected path then (found, {| replies := replies m; nodes := rest |})
      else (false, m)
  | [] => (false, m)
  end.

#[export] Instance machine_host : Host machine :=
  {| subprocess_run := machine_run; node_appears := machine_node |}.

Definition boot (m : machine) (keys : list str) : state machine :=
  {| sys := m; stdin := keys; trace := [] |}.

(** The commands a run executed, oldest first. *)
Definition commands (tr : list event) : list str :=
  rev (flat_map (fun e => match e with Exec cmd _ => [cmd] | _ => [] end) tr).

(** What a run printed, oldest first. *)
Definition printed (tr : list event) : list str :=
  rev (flat_map (fun e => match e with Print l => [l] | _ => [] end) tr).



(** The state after [cmd] ran with the outcome [p]. *)
Definition ran {Sys : Type} (cmd : str) (p : proc) (sys' : Sys) (st : state Sys) : state Sys :=
  {| sys := sys'; stdin := stdin st; trace := Exec cmd p :: trace st |}.

(** A program only adds to the trace. *)
Definition grows {Sys A : Type} (m : M Sys A) : Prop :=
  forall st, exists new, trace (snd (m st)) = new ++ trace st.

(** A program that returns has executed the commands [cs], in this order. *)
Definition issues {Sys A : Type} (m : M Sys A) (cs : list str) : Prop :=
  forall st a st', m st = (Ok a, st') -> commands (trace st') = commands (trace st) ++ cs.

(** An outcome that is a value with the property [P], or a [RuntimeError]. *)
Definition value_or_runtime_error {A : Type} (P : A -> Prop) (r : result A) : Prop :=
  match r with
  | Ok a => P a
  | Raise (RuntimeError _) => True
  | Raise _ => False
  end.

(** The numbers of one row of the layout are not negative. *)
Definition sectors_not_negative (p : Z * Z * Z) : Prop :=
  0 <= fst (fst p) /\ 0 <= snd (fst p) /\ 0 <= snd p.


(** Whether [loop_dev] is bound to [image_path] after the events [tr]: the
    most recent [losetup] on it that succeeded was the attach. *)
Fixpoint attached (tr : list event) (loop_dev image_path : str) : bool :=
  match tr with
  | [] => false
  | Exec cmd p :: older =>
      if (returncode p =? 0) &&
         str_eqb cmd (lit "sudo losetup -P " ++ loop_dev ++ lit " " ++ image_path)
      then true
      else if (returncode p =? 0) && str_eqb cmd (lit "sudo losetup -d " ++ loop_dev)
           then false
           else attached older loop_dev image_path
  | _ :: older => attached older loop_dev image_path
  end.

Definition lines (ls : list str) : str :=
  List.concat (map (fun l => l ++ [nl]) ls).

(** The replies of attaching [image] as [dev]. *)
Definition attach_replies (dev image : str) : list (str * proc) :=
  [ (lit "losetup -f", succeeds (lines [dev]));
    (lit "sudo losetup -P " ++ dev ++ lit " " ++ image, succeeds []);
    (lit "sudo partprobe " ++ dev, succeeds []);
    (lit "sudo udevadm settle", succeeds []) ].

Definition fdisk_before : str :=
  lines [ lit "Disk /dev/loop0: 29.81 GiB, 32010928128 bytes, 62521344 sectors";
          lit "Units: sectors of 1 * 512 = 512 bytes";
          lit "Disklabel type: dos";
          lit "";
          lit "Device       Boot Start      End  Sectors  Size Id Type";
          lit "/dev/loop0p1 *     2048 62521343 62519296 29.8G 83 Linux" ].

Definition fdisk_after : str :=
  lines [ lit "Disk /dev/loop0: 29.81 GiB, 32010928128 bytes, 62521344 sectors";
          lit "Units: sectors of 1 * 512 = 512 bytes";
          lit "Disklabel type: dos";
          lit "";
          lit "Device       Boot Start     End Sectors  Size Id Type";
          lit "/dev/loop0p1 *     2048 2220031 2217984  1.1G 83 Linux" ].


(** A listing without partitions, and one whose only partition is the
    whole image. *)
Definition fdisk_blank : str :=
  lines [ lit "Disk /dev/loop0: 1 MiB, 1048576 bytes, 2048 sectors";
          lit "Units: sectors of 1 * 512 = 512 bytes" ].

Definition fdisk_whole : str :=
  lines [ lit "Device       Boot Start  End Sectors Size Id Type";
          lit "/dev/loop0p7          0 2047    2048   1M 83 Linux" ].

(** A machine on which the layout of an image with the given listing is
    shown. *)
Definition layout_machine (listing : str) : machine :=
  {| replies :=
       attach_replies (lit "/dev/loop0") (lit "pi.img") ++
       [ (lit "blockdev --getss /dev/loop0", succeeds (lines [lit "512"]));
         (lit "sudo fdisk -l /dev/loop0", succeeds listing);
         (lit "sudo losetup -d /dev/loop0", succeeds []) ];
     nodes := [] |}.

(** The replies of the inspection of lines 238-269 on an image whose only
    partition starts at sector 2048, for a given listing. *)
Definition inspect_replies (listing : str) : list (str * proc) :=
  [ (lit "lsblk -ln -o NAME,TYPE /dev/loop0",
     succeeds (lines [lit "loop0   loop"; lit "loop0p1 part"]));
    (lit "sudo blkid -o value -s TYPE /dev/loop0p1", succeeds (lines [lit "ext4"]));
    (lit "sudo e2fsck -f -y /dev/loop0p1", succeeds []);
    (lit "sudo resize2fs -P /dev/loop0p1",
     succeeds (lines [lit "resize2fs 1.45.5 (07-Jan-2020)";
                      lit "Estimated minimum size of the filesystem: 251648"]));
    (lit "sudo tune2fs -l /dev/loop0p1",
     succeeds (lines [lit "Filesystem OS type:       Linux";
                      lit "Block count:              7814912";
                      lit "Block size:               4096"]));
    (lit "sudo fdisk -l /dev/loop0", succeeds listing);
    (lit "blockdev --getss /dev/loop0", succeeds (lines [lit "512"])) ].

Definition shrink_replies : list (str * proc) :=
  [ (lit "sudo resize2fs /dev/loop0p1 277248", succeeds []);
    (lit "sudo fdisk -l /dev/loop0", succeeds fdisk_before);
    (lit "blockdev --getss /dev/loop0", succeeds (lines [lit "512"]));
    (lit "printf 'resizepart 1 2220031s" ++ [nl] ++ lit "Yes" ++ [nl] ++ lit "quit" ++ [nl] ++
     lit "' | sudo parted /dev/loop0 ---pretend-input-tty", succeeds []);
    (lit "sudo losetup -d /dev/loop0", succeeds []) ].

(** A 29.8 GiB image holding 251648 blocks of data: a complete run. *)
Definition pi_image : machine :=
  {| replies :=
       attach_replies (lit "/dev/loop0") (lit "pi.img") ++ inspect_replies fdisk_before ++ shrink_replies ++
       attach_replies (lit "/dev/loop0") (lit "pi.img") ++
       [ (lit "sudo fdisk -l /dev/loop0", succeeds fdisk_after);
         (lit "blockdev --getss /dev/loop0", succeeds (lines [lit "512"]));
         (lit "sudo losetup -d /dev/loop0", succeeds []);
         (lit "truncate -s 1136656384 pi.img", succeeds []) ] ++
       attach_replies (lit "/dev/loop0") (lit "pi.img") ++
       [ (lit "blockdev --getss /dev/loop0", succeeds (lines [lit "512"]));
         (lit "sudo fdisk -l /dev/loop0", succeeds fdisk_after);
         (lit "sudo losetup -d /dev/loop0", succeeds []) ];
     nodes := [ (lit "/dev/loop0p1", true); (lit "/dev/loop0p1", true) ] |}.

(** The same image after that run: the partition is at its target size. *)
Definition shrunk_image : machine :=
  {| replies :=
       attach_replies (lit "/dev/loop0") (lit "pi.img") ++ inspect_replies fdisk_after ++
       [ (lit "sudo losetup -d /dev/loop0", succeeds []) ];
     nodes := [ (lit "/dev/loop0p1", true) ] |}.

(** The image of [pi_image] on a machine where, after the shrink, the
    partition node of the second attach does not show up in time. *)
Definition slow_udev : machine :=
  {| replies :=
       attach_replies (lit "/dev/loop0") (lit "pi.img") ++ inspect_replies fdisk_before ++ shrink_replies ++
       attach_replies (lit "/dev/loop1") (lit "pi.img");
     nodes := [ (lit "/dev/loop0p1", true); (lit "/dev/loop1p1", false) ] |}.

(** The image of [pi_image] when the file cannot be cut: every command up to
    the last detach works, [truncate] does not. *)
Definition read_only_image : machine :=
  {| replies :=
       attach_replies (lit "/dev/loop0") (lit "pi.img") ++ inspect_replies fdisk_before ++
       shrink_replies ++ attach_replies (lit "/dev/loop0") (lit "pi.img") ++
       [ (lit "sudo fdisk -l /dev/loop0", succeeds fdisk_after);
         (lit "blockdev --getss /dev/loop0", succeeds (lines [lit "512"]));
         (lit "sudo losetup -d /dev/loop0", succeeds []) ];
     nodes := [ (lit "/dev/loop0p1", true); (lit "/dev/loop0p1", true) ] |}.

(** The image of [pi_image], or of [shrunk_image], already attached: only
    the inspection is played back. *)
Definition inspecting (listing : str) : machine :=
  {| replies := inspect_replies listing; nodes := [ (lit "/dev/loop0p1", true) ] |}.

(** A machine that knows one command, and one on which only the two
    [losetup] calls of an attach work. *)
Definition one_reply (cmd out : str) : machine :=
  {| replies := [ (cmd, succeeds out) ]; nodes := [] |}.

Definition bare_host : machine :=
  {| replies := [ (lit "losetup -f", succeeds (lines [lit "/dev/loop3"]));
                  (lit "sudo losetup -P /dev/loop3 pi.img", succeeds []) ];
     nodes := [] |}.

(** A machine that answers the two queries of [can_shrink]. *)
Definition probe (listing : str) : machine :=
  {| replies := [ (lit "sudo fdisk -l /dev/loop0", succeeds listing);
                  (lit "blockdev --getss /dev/loop0", succeeds (lines [lit "512"])) ];
     nodes := [] |}.

(** * Properties *)

(** ** Text and monad basics *)

Lemma str_eqb_eq (a b : str) : str_eqb a b = true <-> a = b.
Proof.
  revert b; induction a as [|x a IH]; intros [|y b]; simpl; split; intro E;
    try reflexivity; try discriminate.
  - apply andb_true_iff in E as [E1 E2].
    apply Ascii.eqb_eq in E1. apply IH in E2. now subst.
  - injection E as -> ->. apply andb_true_iff; split.
    + apply Ascii.eqb_refl.
    + now apply IH.
Qed.

Lemma str_eqb_refl (a : str) : str_eqb a a = true.
Proof. now apply str_eqb_eq. Qed.

Lemma str_eqb_neq (a b : str) : a <> b -> str_eqb a b = false.
Proof.
  intro N. destruct (str_eqb a b) eqn:E; [|reflexivity].
  apply str_eqb_eq in E. contradiction.
Qed.

Section Properties.

Context {Sys : Type} `{Host Sys}.

Local Open Scope prog_scope.

Lemma bind_ok {A B : Type} (m : M Sys A) (k : A -> M Sys B) st a st' :
  m st = (Ok a, st') -> bind m k st = k a st'.
Proof. unfold bind; now intros ->. Qed.

Lemma bind_raise {A B : Type} (m : M Sys A) (k : A -> M Sys B) st e st' :
  m st = (Raise e, st') -> bind m k st = (Raise e, st').
Proof. unfold bind; now intros ->. Qed.

Lemma print_eq (line : str) (st : state Sys) : print line st = (Ok tt, log (Print line) st).
Proof. reflexivity. Qed.

(** ** Size planning *)

Lemma ceil_div_bounds (a b : Z) :
  0 < b -> ((a + b - 1) / b - 1) * b < a <= (a + b - 1) / b * b.
Proof.
  intro Hb.
  pose proof (Z.div_mod (a + b - 1) b ltac:(lia)) as E.
  pose proof (Z.mod_pos_bound (a + b - 1) b Hb) as R.
  nia.
Qed.

(** C8: with a block size above 0 and a margin that is not negative, the
    target block count is the minimum plus the margin rounded up to whole
    blocks, so it is never below the minimum. *)
Theorem target_blocks_ge_minimum (min_blocks margin_bytes block_size : Z) :
  0 <= min_blocks -> 0 < block_size -> 0 <= margin_bytes ->
  exists extra target,
    extra_blocks margin_bytes block_size = Ok extra /\
    target_blocks min_blocks margin_bytes block_size = Ok target /\
    target = min_blocks + extra /\
    (extra - 1) * block_size < margin_bytes <= extra * block_size /\
    0 <= extra /\
    min_blocks <= target.
Proof.
  intros Hm Hb Hs.
  exists ((margin_bytes + block_size - 1) / block_size),
         (min_blocks + (margin_bytes + block_size - 1) / block_size).
  unfold target_blocks, extra_blocks, floordiv.
  replace (block_size =? 0) with false by (symmetry; apply Z.eqb_neq; lia).
  simpl. pose proof (ceil_div_bounds margin_bytes block_size Hb) as C.
  assert (0 <= (margin_bytes + block_size - 1) / block_size) by (apply Z.div_pos; lia).
  repeat split; try reflexivity; lia.
Qed.

Lemma target_blocks_ge_minimum_witness :
  exists extra target,
    extra_blocks (SAFETY_MB * 1024 * 1024) 4096 = Ok extra /\
    target_blocks 251648 (SAFETY_MB * 1024 * 1024) 4096 = Ok target /\
    target = 251648 + extra /\
    (extra - 1) * 4096 < SAFETY_MB * 1024 * 1024 <= extra * 4096 /\
    0 <= extra /\
    251648 <= target.
Proof.
  apply (target_blocks_ge_minimum 251648 (SAFETY_MB * 1024 * 1024) 4096);
    unfold SAFETY_MB; lia.
Defined.

(** C1, as the specification words it: 2218000 sectors and end sector
    2220047 are not what the computation gives for these inputs. *)
Lemma size_plan_claimed_values_refuted :
  ~ (extra_blocks (100 * 1024 * 1024) 4096 = Ok 25600 /\
     target_blocks 251648 (100 * 1024 * 1024) 4096 = Ok 277248 /\
     277248 * 4096 = 1135607808 /\
     fs_size_sectors 1135607808 512 = Ok 2218000 /\
     new_end_sector 2048 1135607808 512 = Ok 2220047).
Proof. intros (_ & _ & _ & E & _). vm_compute in E. discriminate E. Qed.

(** C1, amended: the planning functions are functions of their arguments
    alone, and for 251648 minimum blocks of 4096 bytes, a margin of 100 MiB,
    sectors of 512 bytes and a partition that starts at sector 2048 they give
    25600 extra blocks, 277248 target blocks, 1135607808 bytes, 2217984
    sectors and end sector 2220031; a run of [main] on such an image passes
    exactly these numbers to the tools. *)
Theorem size_plan_example :
  extra_blocks (SAFETY_MB * 1024 * 1024) 4096 = Ok 25600 /\
  target_blocks 251648 (SAFETY_MB * 1024 * 1024) 4096 = Ok 277248 /\
  277248 * 4096 = 1135607808 /\
  fs_size_sectors 1135607808 512 = Ok 2217984 /\
  new_end_sector 2048 1135607808 512 = Ok 2220031 /\
  2220031 = 2048 + 2217984 - 1 /\
  (let run := main (lit "pi.img") (boot pi_image []) in
   fst run = Ok tt /\
   In (lit "sudo resize2fs /dev/loop0p1 277248") (commands (trace (snd run))) /\
   In (lit "printf 'resizepart 1 2220031s" ++ [nl] ++ lit "Yes" ++ [nl] ++ lit "quit" ++ [nl] ++
       lit "' | sudo parted /dev/loop0 ---pretend-input-tty") (commands (trace (snd run)))).
Proof.
  do 6 (split; [vm_compute; reflexivity|]).
  vm_compute. split; [reflexivity|]. split.
  - do 11 right. left. reflexivity.
  - do 14 right. left. reflexivity.
Qed.

(** ** The shrink decision *)

(** C2: [can_shrink] answers [True] exactly when the partition is more than
    one sector larger than the target, and [False] in particular when it is
    exactly one sector larger. *)
Theorem can_shrink_iff (loop_dev : str) (part_num target_bytes : Z) (st st1 st2 : state Sys)
    (start_sector end_sector sector_size : Z) :
  get_partition_start loop_dev part_num st = (Ok (start_sector, end_sector), st1) ->
  get_sector_size loop_dev st1 = (Ok sector_size, st2) ->
  0 < sector_size ->
  let current_bytes := (end_sector - start_sector + 1) * sector_size in
  exists b,
    can_shrink loop_dev part_num target_bytes st = (Ok b, st2) /\
    (b = true <-> current_bytes - target_bytes > sector_size) /\
    (current_bytes - target_bytes <= sector_size -> b = false) /\
    (current_bytes = target_bytes + sector_size -> b = false).
Proof.
  intros H1 H2 Hs current_bytes.
  exists (current_bytes - target_bytes >? sector_size).
  split; [|split; [|split]].
  - unfold can_shrink. rewrite (bind_ok _ _ _ _ _ H1). cbn beta iota.
    rewrite (bind_ok _ _ _ _ _ H2). reflexivity.
  - rewrite Z.gtb_ltb, Z.ltb_lt. lia.
  - intro Hle. rewrite Z.gtb_ltb. apply Z.ltb_ge. lia.
  - intro Heq. rewrite Z.gtb_ltb. apply Z.ltb_ge. lia.
Qed.

End Properties.

Lemma can_shrink_iff_witness :
  exists b,
    can_shrink (lit "/dev/loop0") 1 1135607808 (boot (probe fdisk_before) []) =
      (Ok b, snd (get_sector_size (lit "/dev/loop0")
                    (snd (get_partition_start (lit "/dev/loop0") 1
                            (boot (probe fdisk_before) []))))) /\
    (b = true <-> (62521343 - 2048 + 1) * 512 - 1135607808 > 512) /\
    ((62521343 - 2048 + 1) * 512 - 1135607808 <= 512 -> b = false) /\
    ((62521343 - 2048 + 1) * 512 = 1135607808 + 512 -> b = false).
Proof.
  apply (can_shrink_iff (lit "/dev/loop0") 1 1135607808 (boot (probe fdisk_before) [])
           (snd (get_partition_start (lit "/dev/loop0") 1 (boot (probe fdisk_before) [])))
           _ 2048 62521343 512).
  - vm_compute. reflexivity.
  - vm_compute. reflexivity.
  - lia.
Defined.

(** ** Resizing the filesystem, and the menu *)

Section Commands.

Context {Sys : Type} `{Host Sys}.

Local Open Scope prog_scope.

(** X24 (the behaviour that claim C9 describes): without a block count, or
    with the block count 0, [resize_filesystem] runs the resize command
    without a size argument (the filesystem then takes the size of its
    partition); a block count other than 0 is passed on as the size. *)
Theorem resize_filesystem_falsy_blocks (part_dev : str) :
  resize_filesystem part_dev None =
    (run_cmd (lit "sudo resize2fs " ++ part_dev) false true;; ret tt) /\
  resize_filesystem part_dev (Some 0) =
    (run_cmd (lit "sudo resize2fs " ++ part_dev) false true;; ret tt) /\
  (forall blocks, blocks <> 0 ->
     resize_filesystem part_dev (Some blocks) =
       (run_cmd (lit "sudo resize2fs " ++ part_dev ++ lit " " ++ str_of_int blocks) false true;;
        ret tt)).
Proof.
  split; [reflexivity|]. split; [reflexivity|].
  intros blocks Hb. unfold resize_filesystem.
  replace (blocks =? 0) with false by (symmetry; now apply Z.eqb_neq).
  reflexivity.
Qed.

Lemma input_line (prompt line : str) (rest : list str) (st : state Sys) :
  stdin st = line :: rest ->
  input prompt st =
    (Ok line, {| sys := sys st; stdin := rest; trace := Input prompt (Some line) :: trace st |}).
Proof. unfold input. now intros ->. Qed.

Lemma menu_eq (image_path : str) (turns : list str) :
  menu image_path turns =
    (line <- input menu_prompt;;
     let choice := strip line in
     if str_eqb choice (lit "1") then display_image_layout image_path 60
     else if str_eqb choice (lit "2") then main image_path
     else if existsb (str_eqb choice) [lit "3"; lit "q"; lit "Q"]
     then print (lit "Exiting without changes.");;
          raise (SystemExit 0)
     else print (lit "Invalid selection. Please enter 1, 2, or 3.");;
          match turns with
          | _ :: turns' => menu image_path turns'
          | [] => raise EOFError
          end).
Proof. destruct turns; reflexivity. Qed.

Lemma not_in_existsb (choice : str) (options : list str) :
  ~ In choice options -> existsb (str_eqb choice) options = false.
Proof.
  induction options as [|o options IH]; simpl; intro N; [reflexivity|].
  rewrite str_eqb_neq by (intro E; apply N; left; now symmetry).
  apply IH. intro I. apply N. now right.
Qed.

Lemma in_existsb (choice : str) (options : list str) :
  In choice options -> existsb (str_eqb choice) options = true.
Proof.
  intro I. apply existsb_exists. exists choice. split; [assumption|apply str_eqb_refl].
Qed.


End Commands.

Lemma resize_filesystem_falsy_blocks_witness :
  fst (resize_filesystem (lit "/dev/loop0p1") (Some 277248) (boot pi_image [])) =
  fst ((run_cmd (lit "sudo resize2fs /dev/loop0p1 277248") false true;; ret tt)%prog
         (boot pi_image [])).
Proof.
  rewrite (proj2 (proj2 (resize_filesystem_falsy_blocks (lit "/dev/loop0p1"))) 277248);
    [reflexivity | lia].
Defined.


(** * Further properties *)

(** ** The partition after the shrink (lines 285-290, 318) *)

(** X1: with a sector size above 0, the new end sector leaves the partition
    room for the whole filesystem, with less than one sector to spare. *)
Theorem partition_holds_filesystem (start_sector fs_size_bytes sector_size : Z) :
  0 < sector_size ->
  exists sectors new_end,
    fs_size_sectors fs_size_bytes sector_size = Ok sectors /\
    new_end_sector start_sector fs_size_bytes sector_size = Ok new_end /\
    new_end = start_sector + sectors - 1 /\
    fs_size_bytes <= (new_end - start_sector + 1) * sector_size < fs_size_bytes + sector_size.
Proof.
  intro Hs.
  exists ((fs_size_bytes + sector_size - 1) / sector_size),
         (start_sector + (fs_size_bytes + sector_size - 1) / sector_size - 1).
  unfold new_end_sector, fs_size_sectors, floordiv.
  replace (sector_size =? 0) with false by (symmetry; apply Z.eqb_neq; lia).
  pose proof (ceil_div_bounds fs_size_bytes sector_size Hs) as C.
  simpl. repeat split; lia.
Qed.

Lemma partition_holds_filesystem_witness :
  exists sectors new_end,
    fs_size_sectors 1135607809 512 = Ok sectors /\
    new_end_sector 2048 1135607809 512 = Ok new_end /\
    new_end = 2048 + sectors - 1 /\
    1135607809 <= (new_end - 2048 + 1) * 512 < 1135607809 + 512.
Proof. apply (partition_holds_filesystem 2048 1135607809 512). lia. Defined.

(** X2: when the test of [can_shrink] (line 226) holds for a partition, the
    end sector computed from the same start sector, sector size and target
    is below the current end sector: the partition is made smaller, never
    larger. *)
Theorem shrink_moves_end_down (start_sector end_sector sector_size target_bytes : Z) :
  0 < sector_size ->
  ((end_sector - start_sector + 1) * sector_size - target_bytes >? sector_size) = true ->
  exists new_end,
    new_end_sector start_sector target_bytes sector_size = Ok new_end /\
    new_end < end_sector.
Proof.
  intros Hs Hgt. rewrite Z.gtb_ltb, Z.ltb_lt in Hgt.
  exists (start_sector + (target_bytes + sector_size - 1) / sector_size - 1).
  unfold new_end_sector, fs_size_sectors, floordiv.
  replace (sector_size =? 0) with false by (symmetry; apply Z.eqb_neq; lia).
  pose proof (ceil_div_bounds target_bytes sector_size Hs) as C.
  simpl. split; [reflexivity|]. nia.
Qed.

Lemma shrink_moves_end_down_witness :
  exists new_end,
    new_end_sector 2048 1135607808 512 = Ok new_end /\ new_end < 62521343.
Proof. apply (shrink_moves_end_down 2048 62521343 512 1135607808); [lia|reflexivity]. Defined.

(** X3: the size the image is cut to (line 318) never lies beyond the end of
    the resized partition, and it is the end of that partition exactly when
    the filesystem size is a whole number of sectors; otherwise the file
    ends inside the last sector of the partition. *)
Theorem truncate_within_partition (start_sector fs_size_bytes sector_size new_end : Z) :
  0 < sector_size ->
  new_end_sector start_sector fs_size_bytes sector_size = Ok new_end ->
  truncate_size start_sector sector_size fs_size_bytes <= (new_end + 1) * sector_size /\
  (new_end + 1) * sector_size < truncate_size start_sector sector_size fs_size_bytes + sector_size /\
  (truncate_size start_sector sector_size fs_size_bytes = (new_end + 1) * sector_size <->
   fs_size_bytes mod sector_size = 0).
Proof.
  intros Hs. unfold new_end_sector, fs_size_sectors, floordiv, truncate_size.
  replace (sector_size =? 0) with false by (symmetry; apply Z.eqb_neq; lia).
  simpl. intro E. injection E as <-.
  pose proof (ceil_div_bounds fs_size_bytes sector_size Hs) as C.
  pose proof (Z.div_mod fs_size_bytes sector_size ltac:(lia)) as D.
  pose proof (Z.mod_pos_bound fs_size_bytes sector_size Hs) as R.
  set (q := (fs_size_bytes + sector_size - 1) / sector_size) in *.
  split; [nia|]. split; [nia|]. split.
  - intro Heq. assert (Hq : q * sector_size = fs_size_bytes) by nia.
    rewrite <- Hq. apply Z.mod_mul. lia.
  - intro Hm. rewrite Hm in D.
    assert (q = fs_size_bytes / sector_size) by nia. nia.
Qed.

Lemma truncate_within_partition_witness :
  truncate_size 2048 512 1135607809 <= (2220032 + 1) * 512 /\
  (2220032 + 1) * 512 < truncate_size 2048 512 1135607809 + 512 /\
  (truncate_size 2048 512 1135607809 = (2220032 + 1) * 512 <-> 1135607809 mod 512 = 0).
Proof. apply (truncate_within_partition 2048 1135607809 512 2220032); [lia|reflexivity]. Defined.

(** ** Blanks and numbers in text *)

Lemma digit_not_space (c : ascii) : is_digit c = true -> is_space c = false.
Proof.
  unfold is_digit, is_space. intro D.
  apply andb_true_iff in D as [D1 D2]. apply Z.leb_le in D1, D2.
  apply orb_false_iff; split; apply andb_false_iff; right; apply Z.leb_gt; lia.
Qed.


Lemma lstrip_head_not_space (s : str) (c : ascii) (t : str) :
  lstrip s = c :: t -> is_space c = false.
Proof.
  induction s as [|a s IH]; simpl; [discriminate|].
  destruct (is_space a) eqn:E; [exact IH|]. intro Q. now injection Q as <- _.
Qed.


Lemma lstrip_blanks (ws s : str) : forallb is_space ws = true -> lstrip (ws ++ s) = lstrip s.
Proof.
  induction ws as [|a ws IH]; simpl; [reflexivity|].
  intro F. apply andb_true_iff in F as [-> F]. now apply IH.
Qed.



Lemma rstrip_blanks (s ws : str) : forallb is_space ws = true -> rstrip (s ++ ws) = rstrip s.
Proof.
  intro F. unfold rstrip. rewrite rev_app_distr, lstrip_blanks; [reflexivity|].
  rewrite forallb_forall in *. intros c I. apply F. now apply in_rev.
Qed.

Lemma rstrip_last (x : str) (d : ascii) : is_space d = false -> rstrip (x ++ [d]) = x ++ [d].
Proof.
  intro Hd. unfold rstrip. rewrite rev_app_distr. simpl. rewrite Hd.
  simpl. now rewrite rev_involutive.
Qed.


(** Text that neither begins nor ends with a blank is what [strip] leaves of
    it between blanks. *)
Lemma strip_between_blanks (ws1 ws2 : str) (c : ascii) (x : str) (d : ascii) (s : str) :
  forallb is_space ws1 = true -> forallb is_space ws2 = true ->
  s = x ++ [d] -> lstrip s = s -> is_space d = false ->
  strip (ws1 ++ s ++ ws2) = s.
Proof.
  intros F1 F2 -> Hl Hd. unfold strip. rewrite (lstrip_blanks _ _ F1).
  assert (Q : lstrip ((x ++ [d]) ++ ws2) = (x ++ [d]) ++ ws2).
  { destruct x as [|a x]; simpl in *.
    - now rewrite Hd.
    - destruct (is_space a) eqn:Ea; [|reflexivity].
      exfalso. pose proof (lstrip_head_not_space _ _ _ Hl) as N. congruence. }
  rewrite Q, (rstrip_blanks _ _ F2). now apply rstrip_last.
Qed.

Lemma all_digits_ends (s : str) :
  s <> [] -> forallb is_digit s = true ->
  exists x d, s = x ++ [d] /\ lstrip s = s /\ is_space d = false.
Proof.
  intros Hne F. destruct (exists_last Hne) as (x & d & ->).
  exists x, d. rewrite forallb_app in F. apply andb_true_iff in F as [Fx Fd].
  simpl in Fd. rewrite andb_true_r in Fd.
  split; [reflexivity|]. split; [|now apply digit_not_space].
  destruct x as [|a x]; simpl.
  - now rewrite (digit_not_space _ Fd).
  - simpl in Fx. apply andb_true_iff in Fx as [Fa _]. now rewrite (digit_not_space _ Fa).
Qed.

Lemma strip_digits (s : str) : s <> [] -> forallb is_digit s = true -> strip s = s.
Proof.
  intros Hne F. destruct (all_digits_ends s Hne F) as (x & d & E & Hl & Hd).
  pose proof (strip_between_blanks [] [] d x d s eq_refl eq_refl E Hl Hd) as Q.
  simpl in Q. now rewrite app_nil_r in Q.
Qed.

Lemma digit_val_nonneg (c : ascii) : is_digit c = true -> 0 <= digit_val c < 10.
Proof.
  unfold is_digit, digit_val. intro D.
  apply andb_true_iff in D as [D1 D2]. apply Z.leb_le in D1, D2. lia.
Qed.

Lemma digit_char_spec (d : Z) :
  0 <= d < 10 -> is_digit (digit_char d) = true /\ digit_val (digit_char d) = d.
Proof.
  intro R.
  assert (C : d = 0 \/ d = 1 \/ d = 2 \/ d = 3 \/ d = 4 \/
              d = 5 \/ d = 6 \/ d = 7 \/ d = 8 \/ d = 9) by lia.
  repeat (destruct C as [->|C]; [split; reflexivity|]). subst. split; reflexivity.
Qed.

Lemma parse_digits_all (s : str) : forall (acc : Z) (after_digit : bool),
  forallb is_digit s = true -> (s <> [] \/ after_digit = true) -> 0 <= acc ->
  exists n, parse_digits acc after_digit s = Some n /\ 0 <= n.
Proof.
  induction s as [|c t IH]; intros acc b F Hne Hacc.
  - destruct Hne as [Hne| ->]; [contradiction|]. exists acc. now split.
  - simpl in F. apply andb_true_iff in F as [Fc Ft]. cbn [parse_digits]. rewrite Fc.
    pose proof (digit_val_nonneg c Fc). apply IH; [assumption|now right|lia].
Qed.

Lemma digit_not_sign (c : ascii) :
  is_digit c = true -> Ascii.eqb c "-" = false /\ Ascii.eqb c "+" = false.
Proof.
  intro D. split.
  - destruct (Ascii.eqb c "-") eqn:E; [|reflexivity].
    apply Ascii.eqb_eq in E. subst. discriminate D.
  - destruct (Ascii.eqb c "+") eqn:E; [|reflexivity].
    apply Ascii.eqb_eq in E. subst. discriminate D.
Qed.

(** [int] accepts every run of digits, and gives a number that is not
    negative. *)
Lemma py_int_digits (s : str) :
  s <> [] -> forallb is_digit s = true -> exists n, py_int s = Ok n /\ 0 <= n.
Proof.
  intros Hne F. unfold py_int, int_of_str. rewrite (strip_digits s Hne F).
  destruct s as [|c t]; [contradiction|].
  pose proof F as F'. simpl in F'. apply andb_true_iff in F' as [Fc _].
  destruct (digit_not_sign c Fc) as [-> ->].
  destruct (parse_digits_all (c :: t) 0 false F (or_introl Hne) ltac:(lia)) as (n & -> & Hn).
  now exists n.
Qed.

Lemma digits_fuel_digits (fuel : positive) : forall (n : Z) (acc : str),
  0 <= n -> forallb is_digit acc = true -> forallb is_digit (digits_fuel fuel n acc) = true.
Proof.
  induction fuel as [f IH|f IH|]; intros n acc Hn F; simpl;
    destruct (digit_char_spec (n mod 10) (Z.mod_pos_bound n 10 ltac:(lia))) as [D _];
    destruct (n <? 10); simpl; try (now rewrite D);
    (apply IH; [apply Z.div_pos; lia | simpl; now rewrite D]).
Qed.

Lemma digits_fuel_nonempty (fuel : positive) : forall (n : Z) (acc : str),
  digits_fuel fuel n acc <> [].
Proof.
  induction fuel as [f IH|f IH|]; intros n acc; simpl;
    destruct (n <? 10); try discriminate; apply IH.
Qed.

Lemma digits_fuel_parse (fuel : positive) : forall (n : Z) (acc : str),
  0 <= n <= Zpos fuel ->
  exists k, forall a b,
    parse_digits a b (digits_fuel fuel n acc) = parse_digits (k * a + n) true acc.
Proof.
  assert (Small : forall n acc, 0 <= n < 10 ->
            forall a b, parse_digits a b (digit_char (n mod 10) :: acc)
                        = parse_digits (10 * a + n) true acc).
  { intros n acc R a b. rewrite Z.mod_small by lia.
    destruct (digit_char_spec n R) as [D V]. cbn [parse_digits]. now rewrite D, V. }
  assert (Step : forall f n acc,
            (forall n acc, 0 <= n <= Zpos f ->
               exists k, forall a b,
                 parse_digits a b (digits_fuel f n acc) = parse_digits (k * a + n) true acc) ->
            10 <= n -> n / 10 <= Zpos f ->
            exists k, forall a b,
              parse_digits a b (digits_fuel f (n / 10) (digit_char (n mod 10) :: acc))
              = parse_digits (k * a + n) true acc).
  { intros f n acc IH Hn Hf.
    destruct (IH (n / 10) (digit_char (n mod 10) :: acc)) as [k Hk].
    { split; [apply Z.div_pos; lia|assumption]. }
    exists (10 * k). intros a b. rewrite Hk.
    destruct (digit_char_spec (n mod 10) (Z.mod_pos_bound n 10 ltac:(lia))) as [D V].
    cbn [parse_digits]. rewrite D, V. f_equal.
    pose proof (Z.div_mod n 10 ltac:(lia)). lia. }
  induction fuel as [f IH|f IH|]; intros n acc R; simpl;
    destruct (n <? 10) eqn:E;
    try (apply Z.ltb_lt in E; exists 10; apply Small; lia);
    apply Z.ltb_ge in E.
  - apply Step; [exact IH|lia|]. apply Z.div_le_upper_bound; lia.
  - apply Step; [exact IH|lia|]. apply Z.div_le_upper_bound; lia.
  - lia.
Qed.

(** Writing an integer and reading it back gives the integer. *)
Lemma int_of_str_of_int (n : Z) : int_of_str (str_of_int n) = Some n.
Proof.
  destruct n as [|p|p].
  - reflexivity.
  - unfold str_of_int, int_of_str.
    pose proof (digits_fuel_digits p (Zpos p) [] ltac:(lia) eq_refl) as F.
    pose proof (digits_fuel_nonempty p (Zpos p) []) as Hne.
    rewrite (strip_digits _ Hne F).
    destruct (digits_fuel_parse p (Zpos p) [] ltac:(lia)) as [k Hk].
    destruct (digits_fuel p (Zpos p) []) as [|c t] eqn:E; [contradiction|].
    simpl in F. apply andb_true_iff in F as [Fc _].
    destruct (digit_not_sign c Fc) as [-> ->].
    rewrite Hk. simpl. f_equal. lia.
  - unfold str_of_int, int_of_str.
    pose proof (digits_fuel_digits p (Zpos p) [] ltac:(lia) eq_refl) as F.
    pose proof (digits_fuel_nonempty p (Zpos p) []) as Hne.
    destruct (all_digits_ends _ Hne F) as (x & d & E & _ & Hd).
    assert (Q : strip ("-"%char :: digits_fuel p (Zpos p) []) =
                "-"%char :: digits_fuel p (Zpos p) []).
    { pose proof (strip_between_blanks [] [] d ("-"%char :: x) d
                    ("-"%char :: digits_fuel p (Zpos p) []) eq_refl eq_refl) as S.
      simpl in S. rewrite app_nil_r in S. apply S; [now rewrite E|reflexivity|assumption]. }
    rewrite Q. simpl Ascii.eqb. cbv iota.
    destruct (digits_fuel_parse p (Zpos p) [] ltac:(lia)) as [k Hk].
    rewrite Hk. simpl. f_equal. lia.
Qed.


(** ** The matcher *)

Lemma starts_with_sound (l : str) : forall s s', starts_with l s = Some s' -> s = l ++ s'.
Proof.
  induction l as [|x l IH]; intros s s'; simpl.
  - now intros [= ->].
  - destruct s as [|y s]; [discriminate|].
    destruct (Ascii.eqb x y) eqn:E; [|discriminate].
    apply Ascii.eqb_eq in E. subst. intro Q. now rewrite (IH _ _ Q).
Qed.

Lemma starts_with_app (l s : str) : starts_with l (l ++ s) = Some s.
Proof.
  induction l as [|x l IH]; simpl; [reflexivity|]. now rewrite Ascii.eqb_refl.
Qed.

Lemma greedy_sound {R : Type} (lo : nat) (f : nat -> option R) (r : R) : forall k,
  greedy lo k f = Some r -> exists j, (lo <= j <= k)%nat /\ f j = Some r.
Proof.
  induction k as [|k IH]; simpl.
  - destruct (0 <? lo)%nat eqn:E; [discriminate|]. apply Nat.ltb_ge in E.
    destruct (f 0%nat) eqn:F; [|discriminate]. intros [= ->]. exists 0%nat. split; [lia|assumption].
  - destruct (S k <? lo)%nat eqn:E; [discriminate|]. apply Nat.ltb_ge in E.
    destruct (f (S k)) eqn:F.
    + intros [= ->]. exists (S k). split; [lia|assumption].
    + intro G. destruct (IH G) as (j & Hj & Fj). exists j. split; [lia|assumption].
Qed.


Lemma span_firstn (cls : ascii -> bool) : forall (s : str) (k : nat),
  (k <= span cls s)%nat -> forallb cls (firstn k s) = true /\ List.length (firstn k s) = k.
Proof.
  induction s as [|c t IH]; intros k Hk; simpl in Hk.
  - assert (k = 0)%nat by lia. subst. now split.
  - destruct k as [|k]; [now split|].
    destruct (cls c) eqn:E; [|lia].
    destruct (IH k ltac:(lia)) as [F L]. simpl. rewrite E, F, L. now split.
Qed.



(** What [re_match] returns is a match of a prefix of the text. *)
Lemma re_match_sound (r : regex) : forall (s : str) (g : list str),
  re_match r s = Some g -> exists c rest, s = c ++ rest /\ matches r c g.
Proof.
  induction r as [|[l|one cap cls|ch] r IH]; intros s g; simpl.
  - intros [= <-]. now exists [], s.
  - destruct (starts_with l s) as [s'|] eqn:E; [|discriminate].
    intro Q. destruct (IH _ _ Q) as (c & rest & -> & Hm).
    exists (l ++ c), rest. split.
    + rewrite (starts_with_sound _ _ _ E). now rewrite app_assoc.
    + now exists c.
  - intro Q. apply greedy_sound in Q as (j & Hj & Fj).
    destruct (re_match r (skipn j s)) as [g'|] eqn:E; [|discriminate].
    injection Fj as <-.
    destruct (IH _ _ E) as (c & rest & Hs & Hm).
    destruct (span_firstn cls s j ltac:(lia)) as [F L].
    exists (firstn j s ++ c), rest. split.
    + rewrite <- app_assoc, <- Hs. symmetry. apply firstn_skipn.
    + exists (firstn j s), c, g'. repeat split; try assumption.
      intros -> N. rewrite N in L. simpl in L. lia.
  - assert (Skip : re_match r s = Some g ->
                   exists c rest, s = c ++ rest /\
                     ((exists c', c = ch :: c' /\ matches r c' g) \/ matches r c g)).
    { intro Q. destruct (IH _ _ Q) as (c & rest & -> & Hm). exists c, rest. split; [reflexivity|now right]. }
    destruct s as [|c' s']; [exact Skip|].
    destruct (Ascii.eqb ch c') eqn:E; [|exact Skip].
    apply Ascii.eqb_eq in E. subst c'.
    destruct (re_match r s') as [g1|] eqn:E1; [|exact Skip].
    intros [= <-]. destruct (IH _ _ E1) as (c & rest & -> & Hm).
    exists (ch :: c), rest. split; [reflexivity|]. left. now exists c.
Qed.


Lemma re_search_sound (r : regex) : forall (s : str) (g : list str),
  re_search r s = Some g -> exists pre c rest, s = pre ++ c ++ rest /\ matches r c g.
Proof.
  induction s as [|a s IH]; intros g; simpl.
  - destruct (re_match r []) as [g'|] eqn:E; [|discriminate].
    intros [= <-]. destruct (re_match_sound _ _ _ E) as (c & rest & Hs & Hm).
    now exists [], c, rest.
  - destruct (re_match r (a :: s)) as [g'|] eqn:E.
    + intros [= <-]. destruct (re_match_sound _ _ _ E) as (c & rest & Hs & Hm).
      now exists [], c, rest.
    + intro Q. destruct (IH _ Q) as (pre & c & rest & -> & Hm).
      now exists (a :: pre), c, rest.
Qed.


(** ** Finding a partition in the listing (lines 95-101) *)










(** ** Numbers read back from a tool *)

Lemma span_exact (cls : ascii -> bool) (w post : str) :
  forallb cls w = true ->
  match post with [] => True | c :: _ => cls c = false end ->
  span cls (w ++ post) = List.length w.
Proof.
  intros F P. induction w as [|c w IH]; simpl.
  - destruct post as [|c post]; [reflexivity|]. simpl. now rewrite P.
  - simpl in F. apply andb_true_iff in F as [-> F]. now rewrite IH.
Qed.

Lemma firstn_length_app (w post : str) : firstn (List.length w) (w ++ post) = w.
Proof. induction w as [|c w IH]; simpl; [reflexivity|now rewrite IH]. Qed.

Lemma greedy_top {R : Type} (lo k : nat) (f : nat -> option R) (r : R) :
  (lo <= k)%nat -> f k = Some r -> greedy lo k f = Some r.
Proof.
  intros L F.
  assert (Q : (k <? lo)%nat = false) by (apply Nat.ltb_ge; lia).
  destruct k as [|k]; simpl; simpl in Q; now rewrite Q, F.
Qed.

Lemma re_search_head (r : regex) (s : str) (g : list str) :
  re_match r s = Some g -> re_search r s = Some g.
Proof. intro E. destruct s; simpl; now rewrite E. Qed.

Lemma re_match_lit_number (l ds post : str) :
  digit_run ds ->
  match post with [] => True | c :: _ => is_digit c = false end ->
  re_match [Lit l; number] (l ++ ds ++ post) = Some [ds].
Proof.
  intros [N F] P. unfold number. cbn [re_match]. rewrite starts_with_app.
  rewrite (span_exact is_digit ds post F P).
  apply greedy_top.
  - destruct ds; [contradiction|simpl; lia].
  - now rewrite firstn_length_app.
Qed.

Lemma str_of_int_digits (n : Z) : 0 <= n -> digit_run (str_of_int n).
Proof.
  intro Hn. destruct n as [|p|p]; [now split| |lia].
  split; [apply digits_fuel_nonempty|now apply digits_fuel_digits].
Qed.







(** ** Running commands *)

Section Runs.

Context {Sys : Type} `{Host Sys}.

Local Open Scope prog_scope.

Lemma run_cmd_eq (cmd : str) (capture_output check : bool) (st : state Sys) (p : proc) (sys' : Sys) :
  subprocess_run cmd (sys st) = (p, sys') ->
  run_cmd cmd capture_output check st =
    (if check && negb (returncode p =? 0)
     then Raise (RuntimeError
                   (lit "Command failed: " ++ cmd ++ [nl] ++
                    lit "Exit code: " ++ str_of_int (returncode p) ++ [nl] ++
                    lit "stdout: " ++ (if capture_output then stdout p else lit "None") ++ [nl] ++
                    lit "stderr: " ++ stderr p))
     else Ok (if capture_output then Some (strip (stdout p)) else None),
     ran cmd p sys' st).
Proof.
  intro E. unfold run_cmd. rewrite E.
  destruct (check && negb (returncode p =? 0)); reflexivity.
Qed.

Lemma run_cmd_ok (cmd : str) (capture_output check : bool) (st : state Sys) (p : proc) (sys' : Sys) :
  subprocess_run cmd (sys st) = (p, sys') -> check = false \/ returncode p = 0 ->
  run_cmd cmd capture_output check st =
    (Ok (if capture_output then Some (strip (stdout p)) else None), ran cmd p sys' st).
Proof.
  intros E C. rewrite (run_cmd_eq _ _ _ _ _ _ E).
  destruct C as [-> | ->]; [reflexivity|]. now rewrite andb_false_r.
Qed.

Lemma run_cmd_inv (cmd : str) (capture_output check : bool) (st st' : state Sys) (r : result (option str)) :
  run_cmd cmd capture_output check st = (r, st') ->
  exists p sys',
    subprocess_run cmd (sys st) = (p, sys') /\ st' = ran cmd p sys' st /\
    ((exists msg, r = Raise (RuntimeError msg)) /\ check = true /\ returncode p <> 0 \/
     r = Ok (if capture_output then Some (strip (stdout p)) else None) /\
     (check = true -> returncode p = 0)).
Proof.
  destruct (subprocess_run cmd (sys st)) as [p sys'] eqn:E.
  rewrite (run_cmd_eq _ _ _ _ _ _ E). intros [= <- <-].
  exists p, sys'. split; [reflexivity|]. split; [reflexivity|].
  destruct check; simpl.
  - destruct (returncode p =? 0) eqn:Z; simpl.
    + right. split; [reflexivity|]. intros _. now apply Z.eqb_eq.
    + left. split; [eauto|]. split; [reflexivity|]. now apply Z.eqb_neq.
  - right. split; [reflexivity|discriminate].
Qed.


(** X8: [attach_loop_device] needs [losetup -f] and [losetup -P] to
    succeed, and nothing else: it then runs [partprobe] and [udevadm settle]
    and returns the name [losetup -f] printed, whatever the exit status of
    these two. *)
Theorem attach_ignores_probe_failures (image_path : str) (st : state Sys)
    (p0 p1 : proc) (s0 s1 : Sys) :
  subprocess_run (lit "losetup -f") (sys st) = (p0, s0) ->
  returncode p0 = 0 ->
  subprocess_run (lit "sudo losetup -P " ++ strip (stdout p0) ++ lit " " ++ image_path) s0
    = (p1, s1) ->
  returncode p1 = 0 ->
  exists p2 s2 p3 s3,
    subprocess_run (lit "sudo partprobe " ++ strip (stdout p0)) s1 = (p2, s2) /\
    subprocess_run (lit "sudo udevadm settle") s2 = (p3, s3) /\
    attach_loop_device image_path st =
      (Ok (strip (stdout p0)),
       {| sys := s3; stdin := stdin st;
          trace := Exec (lit "sudo udevadm settle") p3 ::
                   Exec (lit "sudo partprobe " ++ strip (stdout p0)) p2 ::
                   Exec (lit "sudo losetup -P " ++ strip (stdout p0) ++ lit " " ++ image_path) p1 ::
                   Exec (lit "losetup -f") p0 :: trace st |}).
Proof.
  intros E0 R0 E1 R1.
  destruct (subprocess_run (lit "sudo partprobe " ++ strip (stdout p0)) s1) as [p2 s2] eqn:E2.
  destruct (subprocess_run (lit "sudo udevadm settle") s2) as [p3 s3] eqn:E3.
  exists p2, s2, p3, s3. split; [reflexivity|]. split; [exact E3|].
  unfold attach_loop_device, find_free_loop_device.
  unfold bind at 1. unfold bind at 1.
  rewrite (run_cmd_ok _ true true st p0 s0 E0 (or_intror R0)). simpl text. unfold ret at 1.
  unfold bind at 1.
  rewrite (run_cmd_ok _ false true (ran _ p0 s0 st) p1 s1 E1 (or_intror R1)).
  unfold bind at 1.
  rewrite (run_cmd_ok _ false false (ran _ p1 s1 (ran _ p0 s0 st)) p2 s2 E2 (or_introl eq_refl)).
  unfold bind at 1.
  rewrite (run_cmd_ok _ false false (ran _ p2 s2 (ran _ p1 s1 (ran _ p0 s0 st))) p3 s3 E3
             (or_introl eq_refl)).
  reflexivity.
Qed.

(** Reading the output of a tool: the command fails, or the program goes on
    with the output, stripped. *)
Lemma read_tool {B : Type} (cmd : str) (k : str -> M Sys B) (st : state Sys) :
  exists p sys',
    subprocess_run cmd (sys st) = (p, sys') /\
    (returncode p <> 0 /\
     (exists msg, (o <- run_cmd cmd true true;; output <- text o;; k output) st
                  = (Raise (RuntimeError msg), ran cmd p sys' st)) \/
     returncode p = 0 /\
     (o <- run_cmd cmd true true;; output <- text o;; k output) st
     = k (strip (stdout p)) (ran cmd p sys' st)).
Proof.
  destruct (subprocess_run cmd (sys st)) as [p sys'] eqn:E.
  exists p, sys'. split; [reflexivity|].
  destruct (returncode p =? 0) eqn:Z.
  - right. split; [now apply Z.eqb_eq|].
    unfold bind at 1. now rewrite (run_cmd_eq _ _ _ _ _ _ E), Z.
  - left. split; [now apply Z.eqb_neq|]. eexists.
    unfold bind at 1. now rewrite (run_cmd_eq _ _ _ _ _ _ E), Z.
Qed.


Lemma py_int_str_of_int (n : Z) : py_int (str_of_int n) = Ok n.
Proof. unfold py_int. now rewrite int_of_str_of_int. Qed.


Lemma matches_lit_number (l c : str) (g : list str) :
  matches [Lit l; number] c g -> exists d, g = [d] /\ digit_run d.
Proof.
  unfold number. simpl.
  intros (c1 & _ & d & c2 & g2 & _ & F & N & (_ & ->) & ->).
  exists d. split; [reflexivity|]. split; [now apply N|assumption].
Qed.

Lemma matches_lit_blanks_number (l c : str) (g : list str) :
  matches [Lit l; Many false false is_space; number] c g -> exists d, g = [d] /\ digit_run d.
Proof.
  unfold number. simpl.
  intros (c1 & _ & w & c2 & g2 & _ & _ & _ & (d & c3 & g3 & _ & F & N & (_ & ->) & ->) & ->).
  exists d. split; [reflexivity|]. split; [now apply N|assumption].
Qed.


Lemma partition_numbers_total (base : str) (lines : list str) :
  exists ns, partition_numbers base lines = Ok ns /\ Forall (fun n => 0 <= n) ns /\
             (List.length ns <= List.length lines)%nat.
Proof.
  induction lines as [|line rest (ns & E & F & L)]; [now exists []|].
  assert (Skip : exists ns0, partition_numbers base rest = Ok ns0 /\
                   Forall (fun n => 0 <= n) ns0 /\
                   (List.length ns0 <= List.length (line :: rest))%nat).
  { exists ns. repeat split; try assumption. simpl. lia. }
  cbn [partition_numbers]. destruct (split line) as [|name [|typ [|x xs]]]; try exact Skip.
  destruct (negb (str_eqb typ (lit "part"))); [exact Skip|].
  destruct (starts_with base name) as [suffix|]; [|exact Skip].
  destruct (negb (List.length suffix =? 0)%nat && forallb is_digit suffix) eqn:D; [|exact Skip].
  apply andb_true_iff in D as [D1 D2].
  assert (Hne : suffix <> []) by (intros ->; discriminate D1).
  destruct (py_int_digits suffix Hne D2) as (n & -> & Hn).
  rewrite E. simpl. exists (n :: ns). repeat split.
  - now constructor.
  - simpl. lia.
Qed.


Lemma get_min_filesystem_blocks_outcome (part_dev : str) (st : state Sys) :
  value_or_runtime_error (fun n => 0 <= n) (fst (get_min_filesystem_blocks part_dev st)).
Proof.
  unfold get_min_filesystem_blocks.
  match goal with |- context [bind _ (fun o => bind (text o) ?k)] =>
    destruct (read_tool (lit "sudo resize2fs -P " ++ part_dev) k st)
      as (p & s' & _ & [[_ [msg ->]]|[_ ->]]); [exact I|]
  end.
  destruct (re_search _ (strip (stdout p))) as [g|] eqn:E; [|exact I].
  destruct (re_search_sound _ _ _ E) as (pre & c & post & _ & Hm).
  apply matches_lit_number in Hm as (d & -> & [N F]).
  destruct (py_int_digits d N F) as (n & Hn & Hn0). unfold lift. now rewrite Hn.
Qed.

Lemma get_block_size_outcome (part_dev : str) (st : state Sys) :
  value_or_runtime_error (fun n => 0 <= n) (fst (get_block_size part_dev st)).
Proof.
  unfold get_block_size.
  match goal with |- context [bind _ (fun o => bind (text o) ?k)] =>
    destruct (read_tool (lit "sudo tune2fs -l " ++ part_dev) k st)
      as (p & s' & _ & [[_ [msg ->]]|[_ ->]]); [exact I|]
  end.
  destruct (re_search _ (strip (stdout p))) as [g|] eqn:E; [|exact I].
  destruct (re_search_sound _ _ _ E) as (pre & c & post & _ & Hm).
  apply matches_lit_blanks_number in Hm as (d & -> & [N F]).
  destruct (py_int_digits d N F) as (n & Hn & Hn0). unfold lift. now rewrite Hn.
Qed.

Lemma list_partition_numbers_outcome (loop_dev : str) (st : state Sys) :
  value_or_runtime_error (Forall (fun n => 0 <= n)) (fst (list_partition_numbers loop_dev st)).
Proof.
  unfold list_partition_numbers.
  match goal with |- context [bind _ (fun o => bind (text o) ?k)] =>
    destruct (read_tool (lit "lsblk -ln -o NAME,TYPE " ++ loop_dev) k st)
      as (p & s' & _ & [[_ [msg ->]]|[_ ->]]); [exact I|]
  end.
  destruct (partition_numbers_total (basename loop_dev ++ lit "p")
              (splitlines (strip (stdout p)))) as (ns & E & F & _).
  unfold lift. now rewrite E.
Qed.


(** X11: [assert_ext_filesystem] lets the run go on exactly when [blkid]
    names the type ext2, ext3 or ext4, blanks around it apart; any other
    name, in capitals for instance, is the [RuntimeError] of line 211. *)
Theorem assert_ext_filesystem_iff (part_dev : str) (st : state Sys) (p : proc) (sys' : Sys) :
  subprocess_run (lit "sudo blkid -o value -s TYPE " ++ part_dev) (sys st) = (p, sys') ->
  returncode p = 0 ->
  let fstype := strip (stdout p) in
  let st' := ran (lit "sudo blkid -o value -s TYPE " ++ part_dev) p sys' st in
  (In fstype [lit "ext2"; lit "ext3"; lit "ext4"] ->
   assert_ext_filesystem part_dev st = (Ok tt, st')) /\
  (~ In fstype [lit "ext2"; lit "ext3"; lit "ext4"] ->
   assert_ext_filesystem part_dev st =
     (Raise (RuntimeError (lit "Unsupported filesystem type '" ++ fstype ++ lit "' on " ++
                           part_dev ++ lit ". This script only handles ext2/3/4.")), st')).
Proof.
  intros E R fstype st'. unfold assert_ext_filesystem.
  match goal with |- context [bind _ (fun o => bind (text o) ?k)] =>
    destruct (read_tool (lit "sudo blkid -o value -s TYPE " ++ part_dev) k st)
      as (p' & s' & E' & [[N _]|[_ Q]]);
      rewrite E in E'; injection E' as <- <-; [contradiction|]
  end.
  split; intro Hin; rewrite Q; fold fstype; fold st'.
  - now rewrite (in_existsb _ _ Hin).
  - now rewrite (not_in_existsb _ _ Hin).
Qed.

(** X27: [get_min_filesystem_blocks] returns the number [resize2fs -P]
    printed after "Estimated minimum size of the filesystem: ", for every
    number that is not negative, when that text opens the output and no
    digit follows the number. *)
Theorem get_min_filesystem_blocks_reads_number (part_dev : str) (st : state Sys)
    (p : proc) (sys' : Sys) (n : Z) (post : str) :
  subprocess_run (lit "sudo resize2fs -P " ++ part_dev) (sys st) = (p, sys') ->
  returncode p = 0 ->
  0 <= n ->
  strip (stdout p) =
    lit "Estimated minimum size of the filesystem: " ++ str_of_int n ++ post ->
  match post with [] => True | c :: _ => is_digit c = false end ->
  get_min_filesystem_blocks part_dev st =
    (Ok n, ran (lit "sudo resize2fs -P " ++ part_dev) p sys' st).
Proof.
  intros E R Hn Hout Hpost. unfold get_min_filesystem_blocks.
  match goal with |- context [bind _ (fun o => bind (text o) ?k)] =>
    destruct (read_tool (lit "sudo resize2fs -P " ++ part_dev) k st)
      as (p' & s' & E' & [[N _]|[_ ->]]);
      rewrite E in E'; injection E' as <- <-; [contradiction|]
  end.
  rewrite Hout.
  rewrite (re_search_head _ _ _ (re_match_lit_number _ _ post (str_of_int_digits n Hn) Hpost)).
  unfold lift. now rewrite py_int_str_of_int.
Qed.


End Runs.

(** ** The layout bar (lines 131-148) *)

Lemma matches_numbers_tail (c : str) (g : list str) :
  matches [blanks; number; blanks; number] c g ->
  exists d1 d2, g = [d1; d2] /\ digit_run d1 /\ digit_run d2.
Proof.
  intros (ws2 & c1 & g1 & _ & _ & _ & Hm & ->).
  destruct Hm as (d1 & c2 & g2 & _ & F1 & N1 & Hm & ->).
  destruct Hm as (ws3 & c3 & g3 & _ & _ & _ & Hm & ->).
  destruct Hm as (d2 & c4 & g4 & _ & F2 & N2 & (_ & ->) & ->).
  exists d1, d2. split; [reflexivity|]. split; (split; [auto|assumption]).
Qed.

Lemma matches_layout_regex (loop_dev c : str) (g : list str) :
  matches (layout_regex loop_dev) c g ->
  exists d1 d2 d3, g = [d1; d2; d3] /\ digit_run d1 /\ digit_run d2 /\ digit_run d3.
Proof.
  intros (c1 & _ & Hm).
  destruct Hm as (d1 & c2 & g2 & _ & F1 & N1 & Hm & ->).
  destruct Hm as (ws & c3 & g3 & _ & _ & _ & Hm & ->).
  assert (T : exists d2 d3, g3 = [d2; d3] /\ digit_run d2 /\ digit_run d3).
  { destruct Hm as [(c4 & _ & Hm)|Hm]; exact (matches_numbers_tail _ _ Hm). }
  destruct T as (d2 & d3 & -> & D2 & D3).
  exists d1, d2, d3. split; [reflexivity|]. split; [|now split].
  split; [auto|assumption].
Qed.

Lemma layout_parts_total (loop_dev : str) (lines : list str) :
  exists parts, layout_parts loop_dev lines = Ok parts /\ Forall sectors_not_negative parts.
Proof.
  induction lines as [|line rest (parts & E & F)]; [now exists []|].
  cbn [layout_parts].
  destruct (re_search (layout_regex loop_dev) line) as [g|] eqn:S.
  - destruct (re_search_sound _ _ _ S) as (pre & c & post & _ & Hm).
    apply matches_layout_regex in Hm as (d1 & d2 & d3 & -> & [N1 F1] & [N2 F2] & [N3 F3]).
    destruct (py_int_digits d1 N1 F1) as (n & -> & Hn).
    destruct (py_int_digits d2 N2 F2) as (s & -> & Hs).
    destruct (py_int_digits d3 N3 F3) as (e & -> & He).
    rewrite E. simpl. exists ((n, s, e) :: parts). split; [reflexivity|].
    constructor; [|assumption]. now repeat split.
  - now exists parts.
Qed.

Lemma layout_parts_none (loop_dev : str) (lines : list str) :
  Forall (fun line => re_search (layout_regex loop_dev) line = None) lines ->
  layout_parts loop_dev lines = Ok [].
Proof.
  induction 1 as [|line rest N _ IH]; [reflexivity|]. cbn [layout_parts]. now rewrite N.
Qed.




Lemma set_nth_app (done : list str) (a v : str) (t : list str) :
  set_nth (done ++ a :: t) (List.length done) v = done ++ v :: t.
Proof. induction done as [|x done IH]; simpl; [reflexivity|now rewrite IH]. Qed.

Lemma list_set_in_range (bar : list str) (i : Z) (v : str) :
  0 <= i < Z.of_nat (List.length bar) -> list_set bar i v = Ok (set_nth bar (Z.to_nat i) v).
Proof.
  intro R. unfold list_set.
  replace (i <? 0) with false by (symmetry; apply Z.ltb_ge; lia).
  replace (0 <=? i) with true by (symmetry; apply Z.leb_le; lia).
  replace (i <? Z.of_nat (List.length bar)) with true by (symmetry; apply Z.ltb_lt; lia).
  reflexivity.
Qed.


Lemma fill_repeat (a v : str) : forall (k : nat) (done : list str),
  fill (done ++ repeat a k) (Z.of_nat (List.length done)) k v = Ok (done ++ repeat v k).
Proof.
  induction k as [|k IH]; intro done; [reflexivity|].
  cbn [fill repeat]. rewrite list_set_in_range.
  - rewrite Nat2Z.id, set_nth_app. cbn [rbind].
    replace (done ++ v :: repeat a k) with ((done ++ [v]) ++ repeat a k)
      by now rewrite <- app_assoc.
    replace (Z.of_nat (List.length done) + 1) with (Z.of_nat (List.length (done ++ [v])))
      by (rewrite length_app; simpl; lia).
    rewrite IH. now rewrite <- app_assoc.
  - rewrite length_app. simpl. lia.
Qed.



Lemma int_truediv_ok (a b : Z) : b <> 0 -> int_truediv a b = Ok (Z.quot a b).
Proof. intro N. unfold int_truediv. apply Z.eqb_neq in N. now rewrite N. Qed.


Lemma percent_0f_ok (bar_width : Z) : bar_width <> 0 -> exists pct, percent_0f bar_width = Ok pct.
Proof.
  intro N. unfold percent_0f. apply Z.eqb_neq in N. rewrite N. eauto.
Qed.


(** A partition that starts at sector 0 and ends at the last sector fills
    the whole bar with its number modulo 10. *)
Lemma paint_whole (bar_width num end_ : Z) :
  0 <= end_ ->
  paint (repeat (lit " ") (Z.to_nat bar_width)) bar_width (end_ + 1) [(num, 0, end_)] =
    Ok (repeat (str_of_int (num mod 10)) (Z.to_nat bar_width)).
Proof.
  intro He. cbn [paint]. rewrite !int_truediv_ok by lia. cbn [rbind].
  rewrite Z.mul_0_l, Z.quot_0_l by lia.
  rewrite (Z.mul_comm (end_ + 1)), Z.quot_mul by lia.
  replace (Z.to_nat (Z.min (Z.max (0 + 1) bar_width) bar_width - 0))
    with (Z.to_nat bar_width) by lia.
  pose proof (fill_repeat (lit " ") (str_of_int (num mod 10)) (Z.to_nat bar_width) []) as Q.
  simpl in Q. simpl. now rewrite Q.
Qed.

(** ** Runs of the program *)

Section Sessions.

Context {Sys : Type} `{Host Sys}.

Local Open Scope prog_scope.

Lemma bind_print {B : Type} (line : str) (k : unit -> M Sys B) (st : state Sys) :
  bind (print line) k st = k tt (log (Print line) st).
Proof. reflexivity. Qed.

Lemma bind_ret {A B : Type} (a : A) (k : A -> M Sys B) (st : state Sys) :
  bind (ret a) k st = k a st.
Proof. reflexivity. Qed.

Lemma bind_lift_ok {A B : Type} (a : A) (k : A -> M Sys B) (st : state Sys) :
  bind (lift (Ok a)) k st = k a st.
Proof. reflexivity. Qed.

Lemma bind_assoc {A B C : Type} (m : M Sys A) (k1 : A -> M Sys B) (k2 : B -> M Sys C)
    (st : state Sys) :
  bind (bind m k1) k2 st = bind m (fun a => bind (k1 a) k2) st.
Proof. unfold bind. now destruct (m st) as [[a|e] s]. Qed.

Lemma try_finally_unit (body fin : M Sys unit) (st st' : state Sys) :
  body st = (Ok tt, st') -> try_finally body fin st = fin st'.
Proof.
  intro E. unfold try_finally. rewrite E. now destruct (fin st') as [[[]|e] s].
Qed.

(** *** The trace only grows *)

Lemma grows_ret {A : Type} (a : A) : grows (ret a : M Sys A).
Proof. intro st. now exists []. Qed.

Lemma grows_raise {A : Type} (e : exn) : grows (raise e : M Sys A).
Proof. intro st. now exists []. Qed.

Lemma grows_lift {A : Type} (r : result A) : grows (lift r : M Sys A).
Proof. intro st. now exists []. Qed.

Lemma grows_text (o : option str) : grows (text o : M Sys str).
Proof. intro st. exists []. now destruct o. Qed.

Lemma grows_print (line : str) : grows (print line : M Sys unit).
Proof. intro st. now exists [Print line]. Qed.

Lemma grows_input (prompt : str) : grows (input prompt : M Sys str).
Proof.
  intro st. unfold input. destruct (stdin st) as [|l rest].
  - now exists [Input prompt None].
  - now exists [Input prompt (Some l)].
Qed.

Lemma grows_run_cmd (cmd : str) (capture_output check : bool) :
  grows (run_cmd cmd capture_output check).
Proof.
  intro st. destruct (subprocess_run cmd (sys st)) as [p sys'] eqn:E.
  rewrite (run_cmd_eq _ _ _ _ _ _ E). now exists [Exec cmd p].
Qed.

Lemma grows_wait (dev_path : str) : grows (wait_for_device dev_path).
Proof.
  intro st. unfold wait_for_device.
  destruct (node_appears dev_path (sys st)) as [found sys'].
  exists [Wait dev_path found]. now destruct found.
Qed.

Lemma grows_bind {A B : Type} (m : M Sys A) (k : A -> M Sys B) :
  grows m -> (forall a, grows (k a)) -> grows (bind m k).
Proof.
  intros Gm Gk st. unfold bind. destruct (Gm st) as [n1 E1].
  destruct (m st) as [[a|e] s1]; simpl in E1.
  - destruct (Gk a s1) as [n2 E2]. exists (n2 ++ n1). now rewrite E2, E1, app_assoc.
  - now exists n1.
Qed.

Lemma grows_try_finally {A : Type} (body : M Sys A) (fin : M Sys unit) :
  grows body -> grows fin -> grows (try_finally body fin).
Proof.
  intros Gb Gf st. unfold try_finally. destruct (Gb st) as [n1 E1].
  destruct (body st) as [r s1]; simpl in E1.
  destruct (Gf s1) as [n2 E2].
  exists (n2 ++ n1). destruct (fin s1) as [[u|e] s2]; simpl in *; now rewrite E2, E1, app_assoc.
Qed.

Ltac grow :=
  repeat first
    [ apply grows_ret | apply grows_raise | apply grows_lift | apply grows_text
    | apply grows_print | apply grows_input | apply grows_run_cmd | apply grows_wait
    | assumption
    | apply grows_bind; [|intro]
    | apply grows_try_finally
    | progress cbv zeta
    | match goal with
      | |- grows (match ?x with _ => _ end) => destruct x
      end ].

Lemma grows_attach (image_path : str) : grows (attach_loop_device image_path).
Proof. unfold attach_loop_device, find_free_loop_device. grow. Qed.

Lemma grows_detach (loop_dev : str) : grows (detach_loop_device loop_dev).
Proof. unfold detach_loop_device. grow. Qed.

Lemma grows_get_sector_size (loop_dev : str) : grows (get_sector_size loop_dev).
Proof. unfold get_sector_size. grow. Qed.

Lemma grows_get_partition_start (loop_dev : str) (part_num : Z) :
  grows (get_partition_start loop_dev part_num).
Proof. unfold get_partition_start. grow. Qed.

Lemma grows_display (image_path : str) (bar_width : Z) :
  grows (display_image_layout image_path bar_width).
Proof.
  unfold display_image_layout.
  pose proof grows_attach. pose proof grows_detach. pose proof grows_get_sector_size.
  grow.
Qed.

Lemma grows_truncate (image_path : str) (new_size : Z) :
  grows (truncate_image image_path new_size).
Proof. unfold truncate_image. grow. Qed.

(** *** Attaching and detaching *)

Lemma detach_eq (loop_dev : str) (st : state Sys) :
  exists p sys',
    subprocess_run (lit "sudo losetup -d " ++ loop_dev) (sys st) = (p, sys') /\
    (returncode p = 0 /\
     detach_loop_device loop_dev st = (Ok tt, ran (lit "sudo losetup -d " ++ loop_dev) p sys' st) \/
     returncode p <> 0 /\
     exists msg, detach_loop_device loop_dev st =
       (Raise (RuntimeError msg), ran (lit "sudo losetup -d " ++ loop_dev) p sys' st)).
Proof.
  destruct (subprocess_run (lit "sudo losetup -d " ++ loop_dev) (sys st)) as [p sys'] eqn:E.
  exists p, sys'. split; [reflexivity|].
  unfold detach_loop_device, bind. rewrite (run_cmd_eq _ _ _ _ _ _ E).
  destruct (returncode p =? 0) eqn:Z; simpl.
  - left. split; [now apply Z.eqb_eq|reflexivity].
  - right. split; [now apply Z.eqb_neq|eauto].
Qed.

Lemma attach_inv (image_path : str) (st st' : state Sys) (loop_dev : str) :
  attach_loop_device image_path st = (Ok loop_dev, st') ->
  exists p0 p1 p2 p3,
    returncode p1 = 0 /\
    trace st' =
      Exec (lit "sudo udevadm settle") p3 ::
      Exec (lit "sudo partprobe " ++ loop_dev) p2 ::
      Exec (lit "sudo losetup -P " ++ loop_dev ++ lit " " ++ image_path) p1 ::
      Exec (lit "losetup -f") p0 :: trace st.
Proof.
  unfold attach_loop_device, find_free_loop_device. intro E.
  unfold bind at 1 in E. unfold bind at 1 in E.
  destruct (run_cmd (lit "losetup -f") true true st) as [[o|e] s0] eqn:E0; [|discriminate].
  apply run_cmd_inv in E0 as (p0 & y0 & _ & -> & [[[msg N] _]|[[= ->] _]]); [discriminate|].
  simpl text in E. unfold ret at 1 in E.
  unfold bind at 1 in E.
  destruct (run_cmd _ false true _) as [[o1|e] s1] eqn:E1 in E; [|discriminate].
  apply run_cmd_inv in E1 as (p1 & y1 & _ & -> & [[[msg N] _]|[_ R1]]); [discriminate|].
  unfold bind at 1 in E.
  destruct (run_cmd _ false false _) as [[o2|e] s2] eqn:E2 in E; [|discriminate].
  apply run_cmd_inv in E2 as (p2 & y2 & _ & -> & _).
  unfold bind at 1 in E.
  destruct (run_cmd _ false false _) as [[o3|e] s3] eqn:E3 in E; [|discriminate].
  apply run_cmd_inv in E3 as (p3 & y3 & _ & -> & _).
  unfold ret in E. injection E as <- <-.
  exists p0, p1, p2, p3. split; [now apply R1|reflexivity].
Qed.

Lemma attached_after_attach (image_path : str) (st st' : state Sys) (loop_dev : str) :
  attach_loop_device image_path st = (Ok loop_dev, st') ->
  attached (trace st') loop_dev image_path = true.
Proof.
  intro E. destruct (attach_inv _ _ _ _ E) as (p0 & p1 & p2 & p3 & R1 & ->).
  cbn. rewrite !andb_false_r. rewrite R1. cbn.
  now rewrite str_eqb_refl.
Qed.

(** *** The layout, attached and detached *)

(** X13: once the image is attached, [display_image_layout] ends by running
    [losetup -d] on the loop device, whatever happened before: that command
    is the last event of the run, and its failure is the outcome. *)
Theorem display_always_detaches (image_path : str) (bar_width : Z) (st st1 : state Sys)
    (loop_dev : str) :
  attach_loop_device image_path st = (Ok loop_dev, st1) ->
  exists st2 p sys',
    (exists new, trace st2 = new ++ trace st1) /\
    subprocess_run (lit "sudo losetup -d " ++ loop_dev) (sys st2) = (p, sys') /\
    snd (display_image_layout image_path bar_width st) =
      ran (lit "sudo losetup -d " ++ loop_dev) p sys' st2 /\
    (returncode p <> 0 ->
     exists msg, fst (display_image_layout image_path bar_width st) = Raise (RuntimeError msg)).
Proof.
  intro Ea. unfold display_image_layout. rewrite (bind_ok _ _ _ _ _ Ea).
  match goal with
  | |- context [try_finally ?b _ st1] =>
      assert (G : grows b) by (pose proof grows_get_sector_size; grow);
      destruct (G st1) as [new En]; unfold try_finally; destruct (b st1) as [r st2]
  end.
  simpl in En.
  destruct (detach_eq loop_dev st2) as (p & sys' & Es & [[Z ->]|[N [msg ->]]]);
    exists st2, p, sys'; (split; [now exists new|]); (split; [assumption|]);
    (split; [reflexivity|]).
  - intro N. contradiction.
  - intros _. now exists msg.
Qed.

(** X14: when no line of the listing holds a partition row, the layout is
    the message of line 138 and then the detach, for every bar width, 0
    included: nothing is divided. *)
Theorem display_no_partitions (image_path : str) (bar_width : Z) (st st1 st2 st3 : state Sys)
    (loop_dev : str) (sector_size : Z) (fdisk_out : str) :
  attach_loop_device image_path st = (Ok loop_dev, st1) ->
  get_sector_size loop_dev st1 = (Ok sector_size, st2) ->
  run_cmd (lit "sudo fdisk -l " ++ loop_dev) true true st2 = (Ok (Some fdisk_out), st3) ->
  Forall (fun line => re_search (layout_regex loop_dev) line = None) (splitlines fdisk_out) ->
  display_image_layout image_path bar_width st =
    detach_loop_device loop_dev
      (log (Print (lit "[layout] No partitions found to display.")) st3).
Proof.
  intros Ea Es Ef Hnone. unfold display_image_layout. rewrite (bind_ok _ _ _ _ _ Ea).
  apply try_finally_unit.
  rewrite (bind_ok _ _ _ _ _ Es), (bind_ok _ _ _ _ _ Ef).
  simpl text. rewrite bind_ret, (layout_parts_none _ _ Hnone), bind_lift_ok.
  reflexivity.
Qed.

(** X15: when the listing holds one partition, from sector 0 on, every
    character of the bar is the number of that partition modulo 10. *)
Theorem display_whole_partition (image_path : str) (bar_width : Z) (st st1 st2 st3 : state Sys)
    (loop_dev : str) (sector_size : Z) (fdisk_out : str) (num end_ : Z) :
  attach_loop_device image_path st = (Ok loop_dev, st1) ->
  get_sector_size loop_dev st1 = (Ok sector_size, st2) ->
  run_cmd (lit "sudo fdisk -l " ++ loop_dev) true true st2 = (Ok (Some fdisk_out), st3) ->
  layout_parts loop_dev (splitlines fdisk_out) = Ok [(num, 0, end_)] ->
  bar_width <> 0 ->
  exists pct,
    percent_0f bar_width = Ok pct /\
    display_image_layout image_path bar_width st =
      detach_loop_device loop_dev
        (log (Print (lit "Legend: " ++ legend_entry sector_size (num, 0, end_)))
           (log (Print (lit "|" ++
                        List.concat (repeat (str_of_int (num mod 10)) (Z.to_nat bar_width)) ++
                        lit "|"))
              (log (Print ([nl] ++ lit "Disk image partition layout (each character ~" ++
                           pct ++ lit "% of image):")) st3))).
Proof.
  intros Ea Es Ef Hparts Hw.
  destruct (percent_0f_ok bar_width Hw) as [pct Ep]. exists pct. split; [assumption|].
  assert (He : 0 <= end_).
  { destruct (layout_parts_total loop_dev (splitlines fdisk_out)) as (parts & E & F).
    rewrite Hparts in E. injection E as <-.
    inversion F as [|? ? (_ & _ & He) _]. exact He. }
  unfold display_image_layout. rewrite (bind_ok _ _ _ _ _ Ea).
  apply try_finally_unit.
  rewrite (bind_ok _ _ _ _ _ Es), (bind_ok _ _ _ _ _ Ef).
  simpl text. rewrite bind_ret, Hparts, bind_lift_ok.
  cbv zeta. unfold max_end. cbn [fold_left].
  rewrite (paint_whole bar_width num end_ He), bind_lift_ok, Ep, bind_lift_ok.
  rewrite !bind_print. cbn [map join]. reflexivity.
Qed.

(** *** The commands of a run *)

Lemma commands_exec (cmd : str) (p : proc) (tr : list event) :
  commands (Exec cmd p :: tr) = commands tr ++ [cmd].
Proof. reflexivity. Qed.

Lemma commands_log_print (line : str) (st : state Sys) :
  commands (trace (log (Print line) st)) = commands (trace st).
Proof. unfold commands. simpl. reflexivity. Qed.

Lemma issues_ret {A : Type} (a : A) : issues (ret a : M Sys A) [].
Proof. intros st a' st' [= _ <-]. now rewrite app_nil_r. Qed.

Lemma issues_raise {A : Type} (e : exn) (cs : list str) : issues (raise e : M Sys A) cs.
Proof. intros st a st' E. discriminate E. Qed.

Lemma issues_lift {A : Type} (r : result A) : issues (lift r : M Sys A) [].
Proof. intros st a st' [= _ <-]. now rewrite app_nil_r. Qed.

Lemma issues_print (line : str) : issues (print line : M Sys unit) [].
Proof. intros st a st' [= _ <-]. now rewrite commands_log_print, app_nil_r. Qed.

Lemma issues_wait (dev_path : str) : issues (wait_for_device dev_path) [].
Proof.
  intros st a st'. unfold wait_for_device.
  destruct (node_appears dev_path (sys st)) as [[|] sys']; [|discriminate].
  intros [= _ <-]. unfold commands. simpl. now rewrite app_nil_r.
Qed.

Lemma issues_run (cmd : str) (capture_output check : bool) :
  issues (run_cmd cmd capture_output check) [cmd].
Proof.
  intros st o st' E.
  apply run_cmd_inv in E as (p & sys' & _ & -> & _). apply commands_exec.
Qed.

Lemma issues_bind {A B : Type} (m : M Sys A) (k : A -> M Sys B) (c1 c2 : list str) :
  issues m c1 -> (forall a, issues (k a) c2) -> issues (bind m k) (c1 ++ c2).
Proof.
  intros Hm Hk st b st' E. unfold bind in E.
  destruct (m st) as [[a|e] s1] eqn:Em; [|discriminate].
  rewrite (Hk a _ _ _ E), (Hm _ _ _ Em). now rewrite app_assoc.
Qed.

Lemma issues_read {B : Type} (cmd : str) (k : str -> M Sys B) (cs : list str) :
  (forall out, issues (k out) cs) ->
  issues (o <- run_cmd cmd true true;; output <- text o;; k output) (cmd :: cs).
Proof.
  intros Hk st b st' E.
  destruct (read_tool cmd k st) as (p & sys' & _ & [[_ [msg Q]]|[_ Q]]);
    rewrite Q in E; [discriminate|].
  rewrite (Hk _ _ _ _ E). unfold ran. cbn [trace]. rewrite commands_exec.
  now rewrite <- app_assoc.
Qed.

Lemma issues_do (cmd : str) (check : bool) : issues (run_cmd cmd false check;; ret tt) [cmd].
Proof.
  apply (issues_bind _ _ [cmd] []); [apply issues_run|intro; apply issues_ret].
Qed.

Lemma issues_list_partition_numbers (loop_dev : str) :
  issues (list_partition_numbers loop_dev) [lit "lsblk -ln -o NAME,TYPE " ++ loop_dev].
Proof. apply issues_read. intro. apply issues_lift. Qed.

Lemma issues_get_sector_size (loop_dev : str) :
  issues (get_sector_size loop_dev) [lit "blockdev --getss " ++ loop_dev].
Proof. apply issues_read. intro. apply issues_lift. Qed.

Lemma issues_get_partition_start (loop_dev : str) (part_num : Z) :
  issues (get_partition_start loop_dev part_num) [lit "sudo fdisk -l " ++ loop_dev].
Proof. apply issues_read. intro. apply issues_lift. Qed.

Lemma issues_get_min_filesystem_blocks (part_dev : str) :
  issues (get_min_filesystem_blocks part_dev) [lit "sudo resize2fs -P " ++ part_dev].
Proof.
  apply issues_read. intro out.
  destruct (re_search _ out) as [[|g [|g' gs]]|];
    (apply issues_lift || apply issues_raise).
Qed.

Lemma issues_get_block_size (part_dev : str) :
  issues (get_block_size part_dev) [lit "sudo tune2fs -l " ++ part_dev].
Proof.
  apply issues_read. intro out.
  destruct (re_search _ out) as [[|g [|g' gs]]|];
    (apply issues_lift || apply issues_raise).
Qed.

Lemma issues_assert_ext_filesystem (part_dev : str) :
  issues (assert_ext_filesystem part_dev) [lit "sudo blkid -o value -s TYPE " ++ part_dev].
Proof.
  apply issues_read. intro out.
  destruct (negb _); [apply issues_raise|apply issues_ret].
Qed.

Lemma issues_can_shrink (loop_dev : str) (part_num target_bytes : Z) :
  issues (can_shrink loop_dev part_num target_bytes)
    [lit "sudo fdisk -l " ++ loop_dev; lit "blockdev --getss " ++ loop_dev].
Proof.
  unfold can_shrink.
  apply (issues_bind _ _ [lit "sudo fdisk -l " ++ loop_dev] [lit "blockdev --getss " ++ loop_dev]);
    [apply issues_get_partition_start|].
  intros [s e].
  apply (issues_bind _ _ [lit "blockdev --getss " ++ loop_dev] []);
    [apply issues_get_sector_size|intro; apply issues_ret].
Qed.

Lemma max_list_spec (ns : list Z) : forall n,
  In (max_list n ns) (n :: ns) /\ Forall (fun k => k <= max_list n ns) (n :: ns).
Proof.
  unfold max_list. induction ns as [|a ns IH]; intro n; simpl.
  - split; [now left|]. constructor; [lia|constructor].
  - destruct (IH (Z.max n a)) as [I F]. split.
    + destruct I as [I|I]; [|now right; right].
      destruct (Z.max_spec n a) as [[_ M]|[_ M]]; rewrite M in *; [right; left|left]; exact I.
    + apply Forall_cons_iff in F as [F1 F2].
      constructor; [lia|]. constructor; [lia|assumption].
Qed.

Lemma target_blocks_inv (min_blocks margin_bytes block_size target : Z) :
  target_blocks min_blocks margin_bytes block_size = Ok target ->
  block_size <> 0 /\
  target = min_blocks + (margin_bytes + block_size - 1) / block_size.
Proof.
  unfold target_blocks, extra_blocks, floordiv.
  destruct (block_size =? 0) eqn:Z; [discriminate|].
  simpl. intros [= <-]. split; [now apply Z.eqb_neq|reflexivity].
Qed.

(** *** The first part of [main] (lines 237-296) *)

Lemma main_measure_inv (loop_dev : str) (st st' : state Sys) (n : Z) (part_dev : str)
    (block_size target : Z) :
  main_measure loop_dev st = (Ok (n, part_dev, block_size, target), st') ->
  exists ns st1 min_blocks,
    list_partition_numbers loop_dev st = (Ok ns, st1) /\
    In n ns /\ Forall (fun k => k <= n) ns /\ 0 <= n /\
    part_dev = loop_dev ++ lit "p" ++ str_of_int n /\
    0 <= min_blocks /\ 0 < block_size /\
    target_blocks min_blocks (SAFETY_MB * 1024 * 1024) block_size = Ok target /\
    commands (trace st') =
      commands (trace st) ++
      [ lit "lsblk -ln -o NAME,TYPE " ++ loop_dev;
        lit "sudo blkid -o value -s TYPE " ++ part_dev;
        lit "sudo e2fsck -f -y " ++ part_dev;
        lit "sudo resize2fs -P " ++ part_dev;
        lit "sudo tune2fs -l " ++ part_dev ].
Proof.
  unfold main_measure. intro E.
  unfold bind at 1 in E.
  destruct (list_partition_numbers loop_dev st) as [[ns|e] s1] eqn:E1; [|discriminate].
  pose proof (list_partition_numbers_outcome loop_dev st) as O1. rewrite E1 in O1. simpl in O1.
  pose proof (issues_list_partition_numbers loop_dev _ _ _ E1) as C1.
  destruct ns as [|n0 ns0]; [discriminate|].
  destruct (max_list_spec ns0 n0) as [Hin Hmax].
  cbv zeta in E.
  set (last := max_list n0 ns0) in *.
  set (pd := loop_dev ++ lit "p" ++ str_of_int last) in *.
  unfold bind at 1 in E.
  destruct (wait_for_device pd s1) as [[[]|e] s2] eqn:E2; [|discriminate].
  pose proof (issues_wait pd _ _ _ E2) as C2.
  unfold bind at 1 in E.
  destruct (assert_ext_filesystem pd s2) as [[[]|e] s3] eqn:E3; [|discriminate].
  pose proof (issues_assert_ext_filesystem pd _ _ _ E3) as C3.
  rewrite !bind_print in E.
  unfold bind at 1 in E.
  destruct (e2fsck_partition pd _) as [[[]|e] s4] eqn:E4 in E; [|discriminate].
  pose proof (issues_do _ _ _ _ _ E4) as C4.
  rewrite !bind_print in E.
  unfold bind at 1 in E.
  destruct (get_min_filesystem_blocks pd _) as [[min_blocks|e] s5] eqn:E5 in E; [|discriminate].
  pose proof (issues_get_min_filesystem_blocks pd _ _ _ E5) as C5.
  match type of E5 with
  | get_min_filesystem_blocks _ ?s = _ =>
      pose proof (get_min_filesystem_blocks_outcome pd s) as O5
  end.
  rewrite E5 in O5. simpl in O5.
  rewrite !bind_print in E.
  unfold bind at 1 in E.
  destruct (get_block_size pd _) as [[bs|e] s6] eqn:E6 in E; [|discriminate].
  pose proof (issues_get_block_size pd _ _ _ E6) as C6.
  match type of E6 with
  | get_block_size _ ?s = _ => pose proof (get_block_size_outcome pd s) as O6
  end.
  rewrite E6 in O6. simpl in O6.
  rewrite !bind_print in E.
  unfold bind at 1 in E. unfold lift at 1 in E.
  destruct (target_blocks min_blocks (SAFETY_MB * 1024 * 1024) bs) as [t|e] eqn:Et;
    [|discriminate].
  rewrite !bind_print in E. unfold ret in E.
  injection E as <- <- <- <- <-.
  destruct (target_blocks_inv _ _ _ _ Et) as [Hbs _].
  exists (n0 :: ns0), s1, min_blocks.
  split; [reflexivity|]. split; [exact Hin|]. split; [exact Hmax|].
  split.
  { rewrite Forall_forall in O1. apply O1. exact Hin. }
  split; [reflexivity|]. split; [assumption|]. split; [lia|]. split; [assumption|].
  rewrite !commands_log_print in *.
  rewrite C6, C5, C4, C3, C2, C1. now rewrite <- !app_assoc.
Qed.

(** X16: when the planning of lines 237-265 goes through, the partition it
    has chosen is the highest-numbered one of the list, its device name is
    the loop device, "p" and that number, the block size and the target
    block count are above 0, and the target size is 100 MiB at least.  So
    [resize_filesystem] is never handed a block count of 0 by [main]. *)
Theorem main_measure_plan (loop_dev : str) (st st' : state Sys) (n : Z) (part_dev : str)
    (block_size target : Z) :
  main_measure loop_dev st = (Ok (n, part_dev, block_size, target), st') ->
  (exists ns st1,
     list_partition_numbers loop_dev st = (Ok ns, st1) /\
     In n ns /\ Forall (fun k => k <= n) ns) /\
  0 <= n /\
  part_dev = loop_dev ++ lit "p" ++ str_of_int n /\
  0 < block_size /\ 0 < target /\
  SAFETY_MB * 1024 * 1024 <= target * block_size.
Proof.
  intro E.
  destruct (main_measure_inv _ _ _ _ _ _ _ E)
    as (ns & st1 & min_blocks & E1 & Hin & Hmax & Hn & Hpd & Hmin & Hbs & Et & _).
  split; [now exists ns, st1|]. split; [assumption|]. split; [assumption|].
  split; [assumption|].
  destruct (target_blocks_inv _ _ _ _ Et) as [_ ->].
  pose proof (ceil_div_bounds (SAFETY_MB * 1024 * 1024) block_size Hbs) as C.
  unfold SAFETY_MB in *. split; nia.
Qed.

Lemma main_shrink_inv (loop_dev : str) (n : Z) (part_dev : str) (block_size target : Z)
    (st st' : state Sys) :
  target <> 0 ->
  main_shrink loop_dev n part_dev block_size target st = (Ok tt, st') ->
  exists start_sector sector_size new_end,
    new_end_sector start_sector (target * block_size) sector_size = Ok new_end /\
    commands (trace st') =
      commands (trace st) ++
      [ lit "sudo resize2fs " ++ part_dev ++ lit " " ++ str_of_int target;
        lit "sudo fdisk -l " ++ loop_dev;
        lit "blockdev --getss " ++ loop_dev;
        lit "printf 'resizepart " ++ str_of_int n ++ lit " " ++ (str_of_int new_end ++ lit "s") ++
          [nl] ++ lit "Yes" ++ [nl] ++ lit "quit" ++ [nl] ++
          lit "' | sudo parted " ++ loop_dev ++ lit " ---pretend-input-tty" ].
Proof.
  intros Ht. unfold main_shrink. intro E.
  rewrite bind_print in E. unfold bind at 1 in E.
  unfold resize_filesystem in E. apply Z.eqb_neq in Ht. rewrite Ht in E. cbn [negb] in E.
  match type of E with
  | context [bind (run_cmd ?c false true) ?k ?s] =>
      destruct (bind (run_cmd c false true) k s) as [[[]|e] s1] eqn:E1; [|discriminate]
  end.
  pose proof (issues_do _ _ _ _ _ E1) as C1.
  rewrite bind_print in E. unfold bind at 1 in E.
  destruct (get_partition_start loop_dev n _) as [[[s e]|e] s2] eqn:E2 in E; [|discriminate].
  pose proof (issues_get_partition_start _ _ _ _ _ E2) as C2.
  rewrite bind_print in E. unfold bind at 1 in E.
  destruct (get_sector_size loop_dev _) as [[ss|e'] s3] eqn:E3 in E; [|discriminate].
  pose proof (issues_get_sector_size _ _ _ _ E3) as C3.
  cbv zeta in E. rewrite bind_print in E. unfold bind at 1 in E. unfold lift at 1 in E.
  destruct (new_end_sector s (target * block_size) ss) as [new_end|e'] eqn:En; [|discriminate].
  rewrite !bind_print in E. unfold bind at 1 in E. unfold resize_partition in E.
  match type of E with
  | context [bind (run_cmd ?c false true) ?k ?s] =>
      destruct (bind (run_cmd c false true) k s) as [[[]|e'] s4] eqn:E4; [|discriminate]
  end.
  pose proof (issues_do _ _ _ _ _ E4) as C4.
  rewrite print_eq in E. injection E as <-.
  exists s, ss, new_end. split; [assumption|].
  rewrite !commands_log_print in *.
  rewrite C4, C3, C2, C1. rewrite <- !app_assoc. reflexivity.
Qed.

(** X17: the commands of the [try] block of [main].  When the block ends by
    the [return] of line 271, it has run the seven commands of the
    inspection in this order and no other: no resizing of the filesystem or
    of the partition.  When it runs to its end, four more follow:
    [resize2fs] with the target block count, which is not 0, the two queries
    again, and [parted]. *)
Theorem main_try_commands (loop_dev : str) (st st' : state Sys) (r : option (Z * Z * Z)) :
  main_try loop_dev st = (Ok r, st') ->
  exists n,
    let part_dev := loop_dev ++ lit "p" ++ str_of_int n in
    let inspection :=
      [ lit "lsblk -ln -o NAME,TYPE " ++ loop_dev;
        lit "sudo blkid -o value -s TYPE " ++ part_dev;
        lit "sudo e2fsck -f -y " ++ part_dev;
        lit "sudo resize2fs -P " ++ part_dev;
        lit "sudo tune2fs -l " ++ part_dev;
        lit "sudo fdisk -l " ++ loop_dev;
        lit "blockdev --getss " ++ loop_dev ] in
    match r with
    | None => commands (trace st') = commands (trace st) ++ inspection
    | Some (last_part_num, block_size, target) =>
        last_part_num = n /\ target <> 0 /\
        exists new_end,
          commands (trace st') =
            commands (trace st) ++ inspection ++
            [ lit "sudo resize2fs " ++ part_dev ++ lit " " ++ str_of_int target;
              lit "sudo fdisk -l " ++ loop_dev;
              lit "blockdev --getss " ++ loop_dev;
              lit "printf 'resizepart " ++ str_of_int n ++ lit " " ++
                (str_of_int new_end ++ lit "s") ++
                [nl] ++ lit "Yes" ++ [nl] ++ lit "quit" ++ [nl] ++
                lit "' | sudo parted " ++ loop_dev ++ lit " ---pretend-input-tty" ]
    end.
Proof.
  unfold main_try. intro E. unfold bind at 1 in E.
  destruct (main_measure loop_dev st) as [[[[[n pd] bs] t]|e] s1] eqn:E1; [|discriminate].
  destruct (main_measure_inv _ _ _ _ _ _ _ E1)
    as (ns & s0 & min_blocks & _ & _ & _ & _ & -> & Hmin & Hbs & Et & C1).
  assert (Ht : t <> 0).
  { destruct (target_blocks_inv _ _ _ _ Et) as [_ ->].
    pose proof (ceil_div_bounds (SAFETY_MB * 1024 * 1024) bs Hbs) as C.
    unfold SAFETY_MB in *. nia. }
  cbv zeta in E. unfold bind at 1 in E.
  destruct (can_shrink loop_dev n (t * bs) s1) as [[shrink|e] s2] eqn:E2; [|discriminate].
  pose proof (issues_can_shrink _ _ _ _ _ _ E2) as C2.
  exists n. cbv zeta.
  destruct shrink; cbn [negb] in E.
  - unfold bind at 1 in E.
    destruct (main_shrink loop_dev n _ bs t s2) as [[[]|e] s3] eqn:E3; [|discriminate].
    unfold ret in E. injection E as <- <-.
    destruct (main_shrink_inv _ _ _ _ _ _ _ Ht E3) as (s & ss & new_end & _ & C3).
    split; [reflexivity|]. split; [assumption|]. exists new_end.
    rewrite C3, C2, C1. now rewrite <- !app_assoc.
  - rewrite bind_print in E. unfold ret in E. injection E as <- <-.
    rewrite commands_log_print, C2, C1. now rewrite <- !app_assoc.
Qed.

(** *** [main] as a whole *)

Lemma main_phases (image_path : str) (st : state Sys) :
  main image_path st =
    (r <- main_first image_path;;
     match r with
     | None => ret tt
     | Some (last_part_num, block_size, target) =>
         main_finish image_path last_part_num block_size target
     end) st.
Proof.
  unfold main, main_first. rewrite !bind_print.
  rewrite bind_assoc, bind_print, bind_assoc, bind_print, bind_assoc.
  match goal with
  | |- bind (attach_loop_device _) _ ?s = _ =>
      destruct (attach_loop_device image_path s) as [[loop_dev|e] s1] eqn:Ea
  end.
  - rewrite (bind_ok _ _ _ _ _ Ea), (bind_ok _ _ _ _ _ Ea).
    now rewrite bind_assoc, !bind_print.
  - now rewrite (bind_raise _ _ _ _ _ Ea), (bind_raise _ _ _ _ _ Ea).
Qed.

Lemma attached_after_detach (loop_dev image_path : str) (p : proc) (tr : list event) :
  returncode p = 0 ->
  attached (Exec (lit "sudo losetup -d " ++ loop_dev) p :: tr) loop_dev image_path = false.
Proof.
  intro R. cbn. rewrite R. cbn. now rewrite str_eqb_refl.
Qed.

(** X18: the [finally] of [main].  Once the image is attached, however the
    [try] block ends, [losetup -d] on the loop device is the next command
    and the last one of this part.  When it fails, its [RuntimeError] is the
    outcome.  When it succeeds the loop device is no longer attached; an
    exception of the block then leaves [main] with nothing run after the
    detach, and so does the early [return], with success. *)
Theorem main_try_block_detaches (image_path : str) (st st1 : state Sys) (loop_dev : str) :
  attach_loop_device image_path
    (log (Print (lit "Attaching image to loop device..."))
       (log (Print (lit "Starting resize and truncate process for " ++ image_path)) st))
    = (Ok loop_dev, st1) ->
  exists r st2 p sys',
    main_try loop_dev (log (Print (lit "Image attached as " ++ loop_dev)) st1) = (r, st2) /\
    subprocess_run (lit "sudo losetup -d " ++ loop_dev) (sys st2) = (p, sys') /\
    let st3 :=
      ran (lit "sudo losetup -d " ++ loop_dev) p sys'
        (log (Print (lit "Detaching loop device " ++ loop_dev ++ lit " to refresh...")) st2) in
    (returncode p <> 0 ->
     exists msg, main_first image_path st = (Raise (RuntimeError msg), st3) /\
                 main image_path st = (Raise (RuntimeError msg), st3)) /\
    (returncode p = 0 ->
     main_first image_path st = (r, st3) /\
     attached (trace st3) loop_dev image_path = false /\
     (forall e, r = Raise e -> main image_path st = (Raise e, st3)) /\
     (r = Ok None -> main image_path st = (Ok tt, st3))).
Proof.
  intro Ea.
  destruct (main_try loop_dev (log (Print (lit "Image attached as " ++ loop_dev)) st1))
    as [r st2] eqn:Et.
  destruct (detach_eq loop_dev
              (log (Print (lit "Detaching loop device " ++ loop_dev ++ lit " to refresh...")) st2))
    as (p & sys' & Es & D).
  exists r, st2, p, sys'. split; [reflexivity|]. split; [exact Es|].
  cbv zeta.
  assert (First : main_first image_path st =
                  match detach_loop_device loop_dev
                          (log (Print (lit "Detaching loop device " ++ loop_dev ++
                                       lit " to refresh...")) st2) with
                  | (Ok _, s) => (r, s)
                  | (Raise e, s) => (Raise e, s)
                  end).
  { unfold main_first. rewrite !bind_print, (bind_ok _ _ _ _ _ Ea), bind_print.
    unfold try_finally. rewrite Et, bind_print. reflexivity. }
  split.
  - intro N. destruct D as [[Z _]|[_ [msg D]]]; [contradiction|].
    exists msg. rewrite D in First. split; [exact First|].
    rewrite main_phases. now rewrite (bind_raise _ _ _ _ _ First).
  - intro Z. destruct D as [[_ D]|[N _]]; [|contradiction].
    rewrite D in First. split; [exact First|]. split.
    + unfold ran. cbn [trace]. now apply attached_after_detach.
    + split.
      * intros e ->. rewrite main_phases. now rewrite (bind_raise _ _ _ _ _ First).
      * intros ->. rewrite main_phases. now rewrite (bind_ok _ _ _ _ _ First).
Qed.

(** X19: the size the image is cut to.  After the first part of [main] has
    shrunk the partition, the start sector and the sector size are read
    again from the loop device of the second attach, and [truncate] is the
    command that follows the detach, with the start sector times the sector
    size plus the target block count times the block size. *)
Theorem main_truncate_size (image_path : str) (st st2 st3 st4 st5 st6 st7 : state Sys)
    (n block_size target : Z) (loop_dev : str) (start_sector end_sector sector_size : Z) :
  main_first image_path st = (Ok (Some (n, block_size, target)), st2) ->
  attach_loop_device image_path st2 = (Ok loop_dev, st3) ->
  wait_for_device (loop_dev ++ lit "p" ++ str_of_int n)
    (log (Print (lit "Reattached image as " ++ loop_dev)) st3) = (Ok tt, st4) ->
  get_partition_start loop_dev n st4 = (Ok (start_sector, end_sector), st5) ->
  get_sector_size loop_dev st5 = (Ok sector_size, st6) ->
  let size := start_sector * sector_size + target * block_size in
  detach_loop_device loop_dev
    (log (Print (lit "Detaching loop device " ++ loop_dev ++ lit " before truncating image..."))
       (log (Print (lit "Calculated truncate size for image: " ++ str_of_int size ++
                    lit " bytes (~" ++ str_of_int (size / (1024 * 1024)) ++ lit " MB)")) st6))
    = (Ok tt, st7) ->
  exists new p,
    trace (snd (main image_path st)) =
      new ++
      Exec (lit "truncate -s " ++ str_of_int size ++ lit " " ++ image_path) p ::
      Print (lit "Truncating image file to remove unused trailing space...") :: trace st7.
Proof.
  intros Ef Ea Ew Eg Es size Ed.
  rewrite main_phases, (bind_ok _ _ _ _ _ Ef). cbv beta iota.
  unfold main_finish. rewrite (bind_ok _ _ _ _ _ Ea), bind_print. cbv zeta.
  rewrite (bind_ok _ _ _ _ _ Ew), (bind_ok _ _ _ _ _ Eg). cbv beta iota.
  rewrite (bind_ok _ _ _ _ _ Es). unfold truncate_size. fold size.
  rewrite !bind_print, (bind_ok _ _ _ _ _ Ed), bind_print.
  set (st8 := log (Print (lit "Truncating image file to remove unused trailing space...")) st7).
  set (cmd := lit "truncate -s " ++ str_of_int size ++ lit " " ++ image_path).
  unfold truncate_image. fold cmd.
  destruct (subprocess_run cmd (sys st8)) as [p sys'] eqn:Er.
  match goal with
  | |- context [bind (bind (run_cmd cmd false true) _) ?k] =>
      assert (G : grows (k tt)) by (pose proof grows_display; grow)
  end.
  unfold bind at 1. unfold bind at 1. rewrite (run_cmd_eq _ _ _ _ _ _ Er).
  destruct (true && negb (returncode p =? 0)).
  - now exists [], p.
  - unfold ret at 1. destruct (G (ran cmd p sys' st8)) as [new En].
    exists new, p. cbv beta in En. rewrite En. reflexivity.
Qed.

(** X20: the second part of [main] has no [finally].  When, after the
    partition has been shrunk and the image attached again, the node of the
    partition does not show up in time, [main] ends with the [RuntimeError]
    of [wait_for_device] and the image is still attached to the loop device:
    no [losetup -d] follows the attach. *)
Theorem main_leaks_when_node_missing (image_path : str) (st st2 st3 : state Sys)
    (n block_size target : Z) (loop_dev : str) (sys4 : Sys) :
  main_first image_path st = (Ok (Some (n, block_size, target)), st2) ->
  attach_loop_device image_path st2 = (Ok loop_dev, st3) ->
  node_appears (loop_dev ++ lit "p" ++ str_of_int n) (sys st3) = (false, sys4) ->
  exists st',
    main image_path st =
      (Raise (RuntimeError (lit "Device " ++ (loop_dev ++ lit "p" ++ str_of_int n) ++
                            lit " did not appear within 10 seconds")), st') /\
    trace st' =
      Wait (loop_dev ++ lit "p" ++ str_of_int n) false ::
      Print (lit "Reattached image as " ++ loop_dev) :: trace st3 /\
    attached (trace st') loop_dev image_path = true.
Proof.
  intros Ef Ea En.
  rewrite main_phases, (bind_ok _ _ _ _ _ Ef). cbv beta iota.
  unfold main_finish. rewrite (bind_ok _ _ _ _ _ Ea), bind_print. cbv zeta.
  unfold bind at 1. unfold wait_for_device at 1. cbn [sys log]. rewrite En.
  eexists. split; [reflexivity|]. split; [reflexivity|].
  cbn [trace log attached]. now apply (attached_after_attach image_path st2).
Qed.

(** *** The menu (lines 336-361) *)

(** X21: started with anything but one argument, the script prints the
    usage line and ends with status 1; it reads nothing and runs nothing. *)
Theorem script_usage (argv : list str) (st : state Sys) :
  List.length argv <> 2%nat ->
  script argv st =
    (Raise (SystemExit 1),
     log (Print (lit "Usage: sudo python3 shrenk.py /path/to/image.img")) st).
Proof.
  intro N. destruct argv as [|a [|b [|c argv]]]; try reflexivity. now contradiction N.
Qed.

(** X22: the choices "1" and "2", blanks around them apart, run the layout
    and [main] on the image, once, and the menu is not shown again; at the
    end of the input the menu ends with [EOFError]. *)
Theorem menu_dispatch (image_path : str) (st : state Sys) :
  (forall line rest,
     stdin st = line :: rest ->
     let st' := {| sys := sys st; stdin := rest;
                   trace := Input menu_prompt (Some line) :: trace st |} in
     (strip line = lit "1" ->
      menu image_path (stdin st) st = display_image_layout image_path 60 st') /\
     (strip line = lit "2" -> menu image_path (stdin st) st = main image_path st')) /\
  (stdin st = [] ->
   forall turns, menu image_path turns st = (Raise EOFError, log (Input menu_prompt None) st)).
Proof.
  split.
  - intros line rest Hin st'. rewrite Hin.
    split; intro Hc; rewrite menu_eq, (bind_ok _ _ _ _ _ (input_line menu_prompt line rest st Hin));
      cbv zeta; rewrite Hc; reflexivity.
  - intros Hin turns. rewrite menu_eq. unfold bind, input. now rewrite Hin.
Qed.




Lemma detach_ok_inv (loop_dev : str) (st st' : state Sys) :
  detach_loop_device loop_dev st = (Ok tt, st') ->
  exists p, returncode p = 0 /\
            trace st' = Exec (lit "sudo losetup -d " ++ loop_dev) p :: trace st.
Proof.
  intro E. destruct (detach_eq loop_dev st) as (p & sys' & _ & [[Z Q]|[_ [msg Q]]]);
    rewrite Q in E; [|discriminate].
  injection E as <-. now exists p.
Qed.

(** X28: a failure of [truncate] comes after the detach.  When everything up
    to the second detach has worked and [truncate] ends with a status other
    than 0, [main] ends with a [RuntimeError], [truncate] is the last
    command it has run, and the image is no longer attached to the loop
    device. *)
Theorem main_truncate_failure_detached (image_path : str)
    (st st2 st3 st4 st5 st6 st7 : state Sys) (n block_size target : Z) (loop_dev : str)
    (start_sector end_sector sector_size : Z) (p : proc) (sys' : Sys) :
  main_first image_path st = (Ok (Some (n, block_size, target)), st2) ->
  attach_loop_device image_path st2 = (Ok loop_dev, st3) ->
  wait_for_device (loop_dev ++ lit "p" ++ str_of_int n)
    (log (Print (lit "Reattached image as " ++ loop_dev)) st3) = (Ok tt, st4) ->
  get_partition_start loop_dev n st4 = (Ok (start_sector, end_sector), st5) ->
  get_sector_size loop_dev st5 = (Ok sector_size, st6) ->
  let size := start_sector * sector_size + target * block_size in
  detach_loop_device loop_dev
    (log (Print (lit "Detaching loop device " ++ loop_dev ++ lit " before truncating image..."))
       (log (Print (lit "Calculated truncate size for image: " ++ str_of_int size ++
                    lit " bytes (~" ++ str_of_int (size / (1024 * 1024)) ++ lit " MB)")) st6))
    = (Ok tt, st7) ->
  subprocess_run (lit "truncate -s " ++ str_of_int size ++ lit " " ++ image_path) (sys st7)
    = (p, sys') ->
  returncode p <> 0 ->
  exists msg st',
    main image_path st = (Raise (RuntimeError msg), st') /\
    trace st' =
      Exec (lit "truncate -s " ++ str_of_int size ++ lit " " ++ image_path) p ::
      Print (lit "Truncating image file to remove unused trailing space...") :: trace st7 /\
    attached (trace st') loop_dev image_path = false.
Proof.
  intros Ef Ea Ew Eg Es size Ed Er Hp.
  rewrite main_phases, (bind_ok _ _ _ _ _ Ef). cbv beta iota.
  unfold main_finish. rewrite (bind_ok _ _ _ _ _ Ea), bind_print. cbv zeta.
  rewrite (bind_ok _ _ _ _ _ Ew), (bind_ok _ _ _ _ _ Eg). cbv beta iota.
  rewrite (bind_ok _ _ _ _ _ Es). unfold truncate_size. fold size.
  rewrite !bind_print, (bind_ok _ _ _ _ _ Ed), bind_print.
  set (st8 := log (Print (lit "Truncating image file to remove unused trailing space...")) st7).
  set (cmd := lit "truncate -s " ++ str_of_int size ++ lit " " ++ image_path) in *.
  unfold truncate_image. fold cmd.
  unfold bind at 1. unfold bind at 1.
  rewrite (run_cmd_eq cmd false true st8 p sys' Er).
  apply Z.eqb_neq in Hp. rewrite Hp. cbn [andb negb].
  eexists. eexists. split; [reflexivity|]. split; [reflexivity|].
  destruct (detach_ok_inv _ _ _ Ed) as (pd & Rd & Td).
  unfold ran, st8. cbn [trace log attached]. rewrite Hp. cbn [andb].
  rewrite Td. now apply attached_after_detach.
Qed.


End Sessions.

Lemma display_always_detaches_witness :
  exists st2 p sys',
    (exists new,
       trace st2 = new ++ trace (snd (attach_loop_device (lit "pi.img")
                                        (boot (layout_machine fdisk_blank) [])))) /\
    subprocess_run (lit "sudo losetup -d " ++ lit "/dev/loop0") (sys st2) = (p, sys') /\
    snd (display_image_layout (lit "pi.img") 60 (boot (layout_machine fdisk_blank) [])) =
      ran (lit "sudo losetup -d " ++ lit "/dev/loop0") p sys' st2 /\
    (returncode p <> 0 ->
     exists msg,
       fst (display_image_layout (lit "pi.img") 60 (boot (layout_machine fdisk_blank) []))
       = Raise (RuntimeError msg)).
Proof.
  apply (display_always_detaches (lit "pi.img") 60 (boot (layout_machine fdisk_blank) [])
           (snd (attach_loop_device (lit "pi.img") (boot (layout_machine fdisk_blank) [])))
           (lit "/dev/loop0")).
  vm_compute. reflexivity.
Defined.

Lemma display_no_partitions_witness :
  fst (display_image_layout (lit "pi.img") 0 (boot (layout_machine fdisk_blank) [])) = Ok tt /\
  printed (trace (snd (display_image_layout (lit "pi.img") 0
                         (boot (layout_machine fdisk_blank) [])))) =
    [lit "[layout] No partitions found to display."].
Proof.
  pose (st0 := boot (layout_machine fdisk_blank) []).
  pose (st1 := snd (attach_loop_device (lit "pi.img") st0)).
  pose (st2 := snd (get_sector_size (lit "/dev/loop0") st1)).
  pose (st3 := snd (run_cmd (lit "sudo fdisk -l " ++ lit "/dev/loop0") true true st2)).
  rewrite (display_no_partitions (lit "pi.img") 0 st0 st1 st2 st3 (lit "/dev/loop0") 512
             (strip fdisk_blank)).
  - vm_compute. split; reflexivity.
  - vm_compute. reflexivity.
  - vm_compute. reflexivity.
  - vm_compute. reflexivity.
  - vm_compute. repeat constructor.
Defined.

Lemma display_whole_partition_witness :
  exists pct,
    percent_0f 60 = Ok pct /\
    printed (trace (snd (display_image_layout (lit "pi.img") 60
                           (boot (layout_machine fdisk_whole) [])))) =
      [ [nl] ++ lit "Disk image partition layout (each character ~" ++ pct ++ lit "% of image):";
        lit "|777777777777777777777777777777777777777777777777777777777777|";
        lit "Legend: 7: 1MB" ].
Proof.
  pose (st0 := boot (layout_machine fdisk_whole) []).
  pose (st1 := snd (attach_loop_device (lit "pi.img") st0)).
  pose (st2 := snd (get_sector_size (lit "/dev/loop0") st1)).
  pose (st3 := snd (run_cmd (lit "sudo fdisk -l " ++ lit "/dev/loop0") true true st2)).
  destruct (display_whole_partition (lit "pi.img") 60 st0 st1 st2 st3 (lit "/dev/loop0") 512
              (strip fdisk_whole) 7 2047) as (pct & Ep & Q).
  - vm_compute. reflexivity.
  - vm_compute. reflexivity.
  - vm_compute. reflexivity.
  - vm_compute. reflexivity.
  - lia.
  - exists pct. split; [exact Ep|].
    fold st0. rewrite Q. injection Ep as <-. vm_compute. reflexivity.
Defined.

Lemma attach_ignores_probe_failures_witness :
  fst (attach_loop_device (lit "pi.img") (boot bare_host [])) = Ok (lit "/dev/loop3") /\
  map (fun e => match e with Exec _ p => returncode p | _ => 0 end)
      (trace (snd (attach_loop_device (lit "pi.img") (boot bare_host [])))) = [127; 127; 0; 0].
Proof.
  destruct (attach_ignores_probe_failures (lit "pi.img") (boot bare_host [])
              (succeeds (lines [lit "/dev/loop3"])) (succeeds [])
              {| replies := [ (lit "sudo losetup -P /dev/loop3 pi.img", succeeds []) ];
                 nodes := [] |}
              {| replies := []; nodes := [] |})
    as (p2 & s2 & p3 & s3 & E2 & E3 & Q).
  - vm_compute. reflexivity.
  - reflexivity.
  - vm_compute. reflexivity.
  - reflexivity.
  - rewrite Q. vm_compute in E2. injection E2 as <- <-.
    vm_compute in E3. injection E3 as <- <-. vm_compute. split; reflexivity.
Defined.


Lemma assert_ext_filesystem_iff_witness :
  fst (assert_ext_filesystem (lit "/dev/loop0p1")
         (boot (one_reply (lit "sudo blkid -o value -s TYPE /dev/loop0p1")
                  (lit "EXT4" ++ [nl])) [])) =
  Raise (RuntimeError (lit "Unsupported filesystem type 'EXT4' on /dev/loop0p1. This script only handles ext2/3/4.")).
Proof.
  assert (Er : subprocess_run (lit "sudo blkid -o value -s TYPE " ++ lit "/dev/loop0p1")
                (sys (boot (one_reply (lit "sudo blkid -o value -s TYPE /dev/loop0p1")
                              (lit "EXT4" ++ [nl])) []))
              = (succeeds (lit "EXT4" ++ [nl]), {| replies := []; nodes := [] |}))
    by (vm_compute; reflexivity).
  pose proof (assert_ext_filesystem_iff (lit "/dev/loop0p1") _ _ _ Er eq_refl) as [_ Q].
  rewrite Q.
  - vm_compute. reflexivity.
  - vm_compute. intros [E|[E|[E|[]]]]; discriminate E.
Defined.


Lemma main_measure_plan_witness :
  0 < 4096 /\ 0 < 277248 /\ SAFETY_MB * 1024 * 1024 <= 277248 * 4096.
Proof.
  destruct (main_measure_plan (lit "/dev/loop0") (boot (inspecting fdisk_before) [])
              (snd (main_measure (lit "/dev/loop0") (boot (inspecting fdisk_before) [])))
              1 (lit "/dev/loop0p1") 4096 277248) as (_ & _ & _ & Hbs & Ht & Hsize).
  - vm_compute. reflexivity.
  - now repeat split.
Defined.

Lemma main_try_commands_witness :
  exists n,
    let part_dev := lit "/dev/loop0" ++ lit "p" ++ str_of_int n in
    let inspection :=
      [ lit "lsblk -ln -o NAME,TYPE " ++ lit "/dev/loop0";
        lit "sudo blkid -o value -s TYPE " ++ part_dev;
        lit "sudo e2fsck -f -y " ++ part_dev;
        lit "sudo resize2fs -P " ++ part_dev;
        lit "sudo tune2fs -l " ++ part_dev;
        lit "sudo fdisk -l " ++ lit "/dev/loop0";
        lit "blockdev --getss " ++ lit "/dev/loop0" ] in
    commands (trace (snd (main_try (lit "/dev/loop0") (boot (inspecting fdisk_after) [])))) =
      commands (trace (boot (inspecting fdisk_after) [])) ++ inspection.
Proof.
  apply (main_try_commands (lit "/dev/loop0") (boot (inspecting fdisk_after) [])
           (snd (main_try (lit "/dev/loop0") (boot (inspecting fdisk_after) []))) None).
  vm_compute. reflexivity.
Defined.

Lemma main_try_block_detaches_witness :
  fst (main (lit "pi.img") (boot shrunk_image [])) = Ok tt /\
  attached (trace (snd (main (lit "pi.img") (boot shrunk_image []))))
    (lit "/dev/loop0") (lit "pi.img") = false.
Proof.
  destruct (main_try_block_detaches (lit "pi.img") (boot shrunk_image [])
              (snd (attach_loop_device (lit "pi.img")
                      (log (Print (lit "Attaching image to loop device..."))
                         (log (Print (lit "Starting resize and truncate process for " ++
                                      lit "pi.img")) (boot shrunk_image [])))))
              (lit "/dev/loop0"))
    as (r & st2 & p & sys' & Et & Es & _ & Hok).
  - vm_compute. reflexivity.
  - vm_compute in Et. injection Et as <- <-.
    vm_compute in Es. injection Es as <- <-.
    destruct (Hok eq_refl) as (_ & Hatt & _ & Hret).
    rewrite (Hret eq_refl). split; [reflexivity|exact Hatt].
Defined.

Lemma main_truncate_size_witness :
  In (lit "truncate -s 1136656384 pi.img")
     (commands (trace (snd (main (lit "pi.img") (boot pi_image []))))).
Proof.
  pose (st0 := boot pi_image []).
  pose (st2 := snd (main_first (lit "pi.img") st0)).
  pose (st3 := snd (attach_loop_device (lit "pi.img") st2)).
  pose (st4 := snd (wait_for_device (lit "/dev/loop0" ++ lit "p" ++ str_of_int 1)
                      (log (Print (lit "Reattached image as " ++ lit "/dev/loop0")) st3))).
  pose (st5 := snd (get_partition_start (lit "/dev/loop0") 1 st4)).
  pose (st6 := snd (get_sector_size (lit "/dev/loop0") st5)).
  pose (st7 := snd (detach_loop_device (lit "/dev/loop0")
                      (log (Print (lit "Detaching loop device " ++ lit "/dev/loop0" ++
                                   lit " before truncating image..."))
                         (log (Print (lit "Calculated truncate size for image: " ++
                                      str_of_int (2048 * 512 + 277248 * 4096) ++
                                      lit " bytes (~" ++
                                      str_of_int ((2048 * 512 + 277248 * 4096) / (1024 * 1024)) ++
                                      lit " MB)")) st6)))).
  destruct (main_truncate_size (lit "pi.img") st0 st2 st3 st4 st5 st6 st7 1 4096 277248
              (lit "/dev/loop0") 2048 2220031 512) as (new & p & Q).
  - vm_compute. reflexivity.
  - vm_compute. reflexivity.
  - vm_compute. reflexivity.
  - vm_compute. reflexivity.
  - vm_compute. reflexivity.
  - vm_compute. reflexivity.
  - fold st0. rewrite Q. unfold commands. apply -> in_rev. apply in_flat_map.
    exists (Exec (lit "truncate -s " ++ str_of_int (2048 * 512 + 277248 * 4096) ++
                  lit " " ++ lit "pi.img") p).
    split; [apply in_or_app; right; now left|]. vm_compute. now left.
Defined.

Lemma main_leaks_when_node_missing_witness :
  exists st',
    main (lit "pi.img") (boot slow_udev []) =
      (Raise (RuntimeError (lit "Device /dev/loop1p1 did not appear within 10 seconds")), st') /\
    attached (trace st') (lit "/dev/loop1") (lit "pi.img") = true.
Proof.
  pose (st0 := boot slow_udev []).
  pose (st2 := snd (main_first (lit "pi.img") st0)).
  pose (st3 := snd (attach_loop_device (lit "pi.img") st2)).
  destruct (main_leaks_when_node_missing (lit "pi.img") st0 st2 st3 1 4096 277248
              (lit "/dev/loop1") {| replies := []; nodes := [] |})
    as (st' & Em & _ & Hatt).
  - vm_compute. reflexivity.
  - vm_compute. reflexivity.
  - vm_compute. reflexivity.
  - exists st'. split; [|exact Hatt]. fold st0. rewrite Em. reflexivity.
Defined.

Lemma script_usage_witness :
  script [lit "shrenk.py"] (boot pi_image []) =
    (Raise (SystemExit 1),
     log (Print (lit "Usage: sudo python3 shrenk.py /path/to/image.img")) (boot pi_image [])).
Proof. apply (script_usage [lit "shrenk.py"] (boot pi_image [])). discriminate. Defined.


Lemma get_min_filesystem_blocks_reads_number_witness :
  fst (get_min_filesystem_blocks (lit "/dev/loop0p1")
         (boot (one_reply (lit "sudo resize2fs -P /dev/loop0p1")
                  (lit "Estimated minimum size of the filesystem: 251648" ++ [nl])) [])) =
  Ok 251648.
Proof.
  assert (Er : subprocess_run (lit "sudo resize2fs -P " ++ lit "/dev/loop0p1")
                 (sys (boot (one_reply (lit "sudo resize2fs -P /dev/loop0p1")
                               (lit "Estimated minimum size of the filesystem: 251648" ++ [nl]))
                         []))
               = (succeeds (lit "Estimated minimum size of the filesystem: 251648" ++ [nl]),
                  {| replies := []; nodes := [] |}))
    by (vm_compute; reflexivity).
  rewrite (get_min_filesystem_blocks_reads_number (lit "/dev/loop0p1") _ _ _ 251648 []
             Er eq_refl ltac:(lia)).
  - reflexivity.
  - vm_compute. reflexivity.
  - exact I.
Defined.

Lemma main_truncate_failure_detached_witness :
  exists msg st',
    main (lit "pi.img") (boot read_only_image []) = (Raise (RuntimeError msg), st') /\
    attached (trace st') (lit "/dev/loop0") (lit "pi.img") = false.
Proof.
  pose (st0 := boot read_only_image []).
  pose (st2 := snd (main_first (lit "pi.img") st0)).
  pose (st3 := snd (attach_loop_device (lit "pi.img") st2)).
  pose (st4 := snd (wait_for_device (lit "/dev/loop0" ++ lit "p" ++ str_of_int 1)
                      (log (Print (lit "Reattached image as " ++ lit "/dev/loop0")) st3))).
  pose (st5 := snd (get_partition_start (lit "/dev/loop0") 1 st4)).
  pose (st6 := snd (get_sector_size (lit "/dev/loop0") st5)).
  pose (st7 := snd (detach_loop_device (lit "/dev/loop0")
                      (log (Print (lit "Detaching loop device " ++ lit "/dev/loop0" ++
                                   lit " before truncating image..."))
                         (log (Print (lit "Calculated truncate size for image: " ++
                                      str_of_int (2048 * 512 + 277248 * 4096) ++
                                      lit " bytes (~" ++
                                      str_of_int ((2048 * 512 + 277248 * 4096) / (1024 * 1024)) ++
                                      lit " MB)")) st6)))).
  destruct (main_truncate_failure_detached (lit "pi.img") st0 st2 st3 st4 st5 st6 st7
              1 4096 277248 (lit "/dev/loop0") 2048 2220031 512
              (fails 127 (lit "unexpected command")) {| replies := []; nodes := [] |})
    as (msg & st' & Em & _ & Hatt).
  - vm_compute. reflexivity.
  - vm_compute. reflexivity.
  - vm_compute. reflexivity.
  - vm_compute. reflexivity.
  - vm_compute. reflexivity.
  - vm_compute. reflexivity.
  - vm_compute. reflexivity.
  - discriminate.
  - exists msg, st'. split; [exact Em|exact Hatt].
Defined.
